(** * The WEEX documentation server's authenticating CORS proxy

    A shallow embedding of [proxy-server.py]: the signer
    [generate_signature], the handler [CORSProxyHandler] with its
    [end_headers], [do_OPTIONS], [do_GET], [do_POST] and [_proxy_request],
    and the parts of the Python runtime those rely on (UTF-8 and Latin-1
    codecs, [hmac], [hashlib.sha256], [base64.b64encode], [json.dumps],
    [str.split], [int]). *)

From Stdlib Require Import List NArith ZArith Lia Bool String Ascii.
From Stdlib Require Import Init.Byte.
From Stdlib Require DecimalString DecimalZ.
Import ListNotations.

Local Open Scope N_scope.

(** ** Bytes and Python strings *)

(** A Python [bytes] object. *)
Definition bytes := list byte.

(** A Python [str]: a sequence of Unicode code points. *)
Definition str := list N.

Definition byte_of_N (n : N) : byte :=
  match Byte.of_N n with
  | Some b => b
  | None => x00
  end.

(** A source-code string literal (ASCII) as a [str] and as [bytes]. *)
Definition lit (s : string) : str :=
  List.map N_of_ascii (list_ascii_of_string s).

Definition blit (s : string) : bytes :=
  List.map byte_of_ascii (list_ascii_of_string s).

(** Text within ASCII. *)
Definition is_ascii (s : str) : Prop := Forall (fun c => c < 128) s.

Definition str_eqb (a b : str) : bool :=
  if list_eq_dec N.eq_dec a b then true else false.

(** ** hashlib.sha256 (FIPS 180-4) *)

Module SHA256.

Definition mask32 : N := 4294967295.

Definition add32 (x y : N) : N := N.land (x + y) mask32.

Definition rotr (n x : N) : N :=
  N.lor (N.shiftr x n) (N.land (N.shiftl x (32 - n)) mask32).

Definition Ch (x y z : N) : N :=
  N.lxor (N.land x y) (N.land (N.lxor x mask32) z).

Definition Maj (x y z : N) : N :=
  N.lxor (N.lxor (N.land x y) (N.land x z)) (N.land y z).

Definition bsig0 (x : N) : N :=
  N.lxor (N.lxor (rotr 2 x) (rotr 13 x)) (rotr 22 x).

Definition bsig1 (x : N) : N :=
  N.lxor (N.lxor (rotr 6 x) (rotr 11 x)) (rotr 25 x).

Definition ssig0 (x : N) : N :=
  N.lxor (N.lxor (rotr 7 x) (rotr 18 x)) (N.shiftr x 3).

Definition ssig1 (x : N) : N :=
  N.lxor (N.lxor (rotr 17 x) (rotr 19 x)) (N.shiftr x 10).

(** The round constants and the initial hash value are, as the standard
    defines them, the first 32 fractional bits of the cube roots (square
    roots) of the first primes. *)

Fixpoint has_divisor (ps : list N) (k : N) : bool :=
  match ps with
  | [] => false
  | p :: ps' => (k mod p =? 0) || has_divisor ps' k
  end.

Fixpoint primes_from (fuel : nat) (k : N) (found : list N) : list N :=
  match fuel with
  | O => List.rev found
  | S fuel' =>
      if has_divisor found k
      then primes_from fuel' (k + 1) found
      else primes_from fuel' (k + 1) (k :: found)
  end.

Definition first_primes (n : nat) : list N :=
  firstn n (primes_from 320 2 []).

(** Integer cube root, one bit at a time from bit [bit] downwards. *)
Fixpoint cbrt_bits (bit : nat) (n r : N) : N :=
  let try := r + 2 ^ N.of_nat bit in
  let r' := if try * try * try <=? n then try else r in
  match bit with
  | O => r'
  | S bit' => cbrt_bits bit' n r'
  end.

Definition frac_cbrt32 (p : N) : N :=
  N.land (cbrt_bits 40 (p * 2 ^ 96) 0) mask32.

Definition frac_sqrt32 (p : N) : N :=
  N.land (N.sqrt (p * 2 ^ 64)) mask32.

Definition K : list N :=
  Eval vm_compute in List.map frac_cbrt32 (first_primes 64).

Definition H0 : list N :=
  Eval vm_compute in List.map frac_sqrt32 (first_primes 8).

(** Padding: a 1 bit, zeros up to 56 mod 64 bytes, the bit length on
    eight bytes, big endian. *)

Fixpoint be_bytes (n : nat) (x : N) : bytes :=
  match n with
  | O => []
  | S n' => byte_of_N (N.land (N.shiftr x (8 * N.of_nat n')) 255)
              :: be_bytes n' x
  end.

Definition pad (msg : bytes) : bytes :=
  let len := List.length msg in
  let zeros := ((119 - len mod 64) mod 64)%nat in
  msg ++ x80 :: repeat x00 zeros ++ be_bytes 8 (8 * N.of_nat len).

Fixpoint be_words (b : bytes) : list N :=
  match b with
  | b0 :: b1 :: b2 :: b3 :: rest =>
      (Byte.to_N b0 * 16777216 + Byte.to_N b1 * 65536
       + Byte.to_N b2 * 256 + Byte.to_N b3) :: be_words rest
  | _ => []
  end.

(** The message schedule, kept newest word first while it grows. *)
Fixpoint extend (n : nat) (rw : list N) : list N :=
  match n with
  | O => rw
  | S n' =>
      let wt := add32 (add32 (ssig1 (nth 1 rw 0)) (nth 6 rw 0))
                      (add32 (ssig0 (nth 14 rw 0)) (nth 15 rw 0)) in
      extend n' (wt :: rw)
  end.

Definition schedule (block : list N) : list N :=
  List.rev (extend 48 (List.rev block)).

Record regs := Regs { ra : N; rb : N; rc : N; rd : N;
                      re : N; rf : N; rg : N; rh : N }.

Definition round (s : regs) (kw : N * N) : regs :=
  let '(k, w) := kw in
  let t1 := add32 (add32 (add32 (rh s) (bsig1 (re s)))
                         (add32 (Ch (re s) (rf s) (rg s)) k)) w in
  let t2 := add32 (bsig0 (ra s)) (Maj (ra s) (rb s) (rc s)) in
  Regs (add32 t1 t2) (ra s) (rb s) (rc s)
       (add32 (rd s) t1) (re s) (rf s) (rg s).

Definition compress (h : regs) (block : list N) : regs :=
  let s := fold_left round (combine K (schedule block)) h in
  Regs (add32 (ra h) (ra s)) (add32 (rb h) (rb s))
       (add32 (rc h) (rc s)) (add32 (rd h) (rd s))
       (add32 (re h) (re s)) (add32 (rf h) (rf s))
       (add32 (rg h) (rg s)) (add32 (rh h) (rh s)).

Fixpoint blocks (fuel : nat) (ws : list N) (h : regs) : regs :=
  match fuel, ws with
  | S fuel', _ :: _ => blocks fuel' (skipn 16 ws) (compress h (firstn 16 ws))
  | _, _ => h
  end.

Definition init : regs :=
  Regs (nth 0 H0 0) (nth 1 H0 0) (nth 2 H0 0) (nth 3 H0 0)
       (nth 4 H0 0) (nth 5 H0 0) (nth 6 H0 0) (nth 7 H0 0).

Definition digest (msg : bytes) : bytes :=
  let ws := be_words (pad msg) in
  let h := blocks (List.length ws) ws init in
  List.flat_map (be_bytes 4)
    [ra h; rb h; rc h; rd h; re h; rf h; rg h; rh h].

End SHA256.

(** ** hmac.new(key, msg, hashlib.sha256).digest() (RFC 2104) *)

Definition xor_byte (c : N) (b : byte) : byte :=
  byte_of_N (N.lxor c (Byte.to_N b)).

Definition hmac_sha256 (key msg : bytes) : bytes :=
  let k0 := if (64 <? List.length key)%nat then SHA256.digest key else key in
  let k := k0 ++ repeat x00 (64 - List.length k0) in
  SHA256.digest (List.map (xor_byte 92) k
                 ++ SHA256.digest (List.map (xor_byte 54) k ++ msg)).

(** ** base64.b64encode *)

Definition b64_alphabet : bytes :=
  blit "ABCDEFGHIJKLMNOPQRSTUVWXYZabcdefghijklmnopqrstuvwxyz0123456789+/".

Definition b64_char (i : N) : byte := nth (N.to_nat i) b64_alphabet x3d.

Fixpoint b64encode (b : bytes) : bytes :=
  match b with
  | [] => []
  | [b0] =>
      let n0 := Byte.to_N b0 in
      [b64_char (n0 / 4); b64_char (n0 mod 4 * 16); x3d; x3d]
  | [b0; b1] =>
      let n0 := Byte.to_N b0 in
      let n1 := Byte.to_N b1 in
      [b64_char (n0 / 4); b64_char (n0 mod 4 * 16 + n1 / 16);
       b64_char (n1 mod 16 * 4); x3d]
  | b0 :: b1 :: b2 :: rest =>
      let n0 := Byte.to_N b0 in
      let n1 := Byte.to_N b1 in
      let n2 := Byte.to_N b2 in
      b64_char (n0 / 4) :: b64_char (n0 mod 4 * 16 + n1 / 16)
        :: b64_char (n1 mod 16 * 4 + n2 / 64) :: b64_char (n2 mod 64)
        :: b64encode rest
  end.

Definition hex_of_bytes (b : bytes) : string :=
  let hexdigit (n : N) : ascii :=
    ascii_of_N (if n <? 10 then 48 + n else 87 + n) in
  string_of_list_ascii
    (List.flat_map (fun x => [hexdigit (Byte.to_N x / 16);
                              hexdigit (Byte.to_N x mod 16)]) b).

Definition string_of_bytes (b : bytes) : string :=
  string_of_list_ascii (List.map ascii_of_byte b).

(** ** Codecs *)

(** [bytes.decode('iso-8859-1')]: how [http.server] turns the request line
    and the header block into [str]. *)
Definition latin1_decode (b : bytes) : str := List.map Byte.to_N b.

Definition between (lo hi n : N) : bool := (lo <=? n) && (n <=? hi).

(** [str.encode()] (UTF-8, strict): a lone surrogate raises
    UnicodeEncodeError, here [None]. *)
Definition utf8_encode_cp (cp : N) : option bytes :=
  if cp <? 128 then Some [byte_of_N cp]
  else if cp <? 2048 then
    Some [byte_of_N (192 + cp / 64); byte_of_N (128 + cp mod 64)]
  else if cp <? 65536 then
    if between 55296 57343 cp then None
    else Some [byte_of_N (224 + cp / 4096);
               byte_of_N (128 + cp / 64 mod 64);
               byte_of_N (128 + cp mod 64)]
  else if cp <? 1114112 then
    Some [byte_of_N (240 + cp / 262144);
          byte_of_N (128 + cp / 4096 mod 64);
          byte_of_N (128 + cp / 64 mod 64);
          byte_of_N (128 + cp mod 64)]
  else None.

Fixpoint utf8_encode (s : str) : option bytes :=
  match s with
  | [] => Some []
  | cp :: s' =>
      match utf8_encode_cp cp, utf8_encode s' with
      | Some b, Some bs => Some (b ++ bs)
      | _, _ => None
      end
  end.

(** The [errors] argument of [bytes.decode]. *)
Inductive errors := Strict | Replace.

(** What a first byte announces: the length of the sequence and the range
    allowed for its second byte (which excludes overlong forms, surrogates
    and code points above U+10FFFF). *)
Inductive lead :=
| Single
| Lead2
| Lead3 (lo hi : N)
| Lead4 (lo hi : N)
| BadLead.

Definition classify (n : N) : lead :=
  if n <? 128 then Single
  else if n <? 194 then BadLead
  else if n <? 224 then Lead2
  else if n =? 224 then Lead3 160 191
  else if n =? 237 then Lead3 128 159
  else if n <? 240 then Lead3 128 191
  else if n =? 240 then Lead4 144 191
  else if n <? 244 then Lead4 128 191
  else if n =? 244 then Lead4 128 143
  else BadLead.

Definition on_error (e : errors) (k : option str) : option str :=
  match e with
  | Strict => None
  | Replace => option_map (cons 65533) k
  end.

(** [bytes.decode('utf-8', errors)]. An ill-formed sequence raises
    UnicodeDecodeError under [Strict] ([None]); under [Replace] its maximal
    well-formed prefix (at least one byte) becomes one U+FFFD and decoding
    resumes at the byte that broke it. *)
Fixpoint utf8_decode (e : errors) (b : bytes) : option str :=
  match b with
  | [] => Some []
  | b0 :: r0 =>
      let n0 := Byte.to_N b0 in
      match classify n0 with
      | Single => option_map (cons n0) (utf8_decode e r0)
      | BadLead => on_error e (utf8_decode e r0)
      | Lead2 =>
          match r0 with
          | [] => on_error e (Some [])
          | b1 :: r1 =>
              let n1 := Byte.to_N b1 in
              if between 128 191 n1
              then option_map (cons ((n0 - 192) * 64 + (n1 - 128)))
                              (utf8_decode e r1)
              else on_error e (utf8_decode e r0)
          end
      | Lead3 lo hi =>
          match r0 with
          | [] => on_error e (Some [])
          | b1 :: r1 =>
              let n1 := Byte.to_N b1 in
              if between lo hi n1 then
                match r1 with
                | [] => on_error e (Some [])
                | b2 :: r2 =>
                    let n2 := Byte.to_N b2 in
                    if between 128 191 n2
                    then option_map
                           (cons ((n0 - 224) * 4096 + (n1 - 128) * 64
                                  + (n2 - 128)))
                           (utf8_decode e r2)
                    else on_error e (utf8_decode e r1)
                end
              else on_error e (utf8_decode e r0)
          end
      | Lead4 lo hi =>
          match r0 with
          | [] => on_error e (Some [])
          | b1 :: r1 =>
              let n1 := Byte.to_N b1 in
              if between lo hi n1 then
                match r1 with
                | [] => on_error e (Some [])
                | b2 :: r2 =>
                    let n2 := Byte.to_N b2 in
                    if between 128 191 n2 then
                      match r2 with
                      | [] => on_error e (Some [])
                      | b3 :: r3 =>
                          let n3 := Byte.to_N b3 in
                          if between 128 191 n3
                          then option_map
                                 (cons ((n0 - 240) * 262144
                                        + (n1 - 128) * 4096
                                        + (n2 - 128) * 64 + (n3 - 128)))
                                 (utf8_decode e r3)
                          else on_error e (utf8_decode e r2)
                      end
                    else on_error e (utf8_decode e r1)
                end
              else on_error e (utf8_decode e r0)
          end
      end
  end.

(** What a decoder may return for given bytes, sequence by sequence: the
    code point of a well-formed sequence or, under [Replace], U+FFFD for a
    non-empty run of bytes. *)
Inductive decoded : errors -> bytes -> str -> Prop :=
| dec_nil e : decoded e [] []
| dec_seq e cp enc rest s :
    utf8_encode_cp cp = Some enc -> decoded e rest s ->
    decoded e (enc ++ rest) (cp :: s)
| dec_bad bad rest s :
    bad <> [] -> decoded Replace rest s ->
    decoded Replace (bad ++ rest) (65533 :: s).

(** ** Python built-ins the handler uses *)

(** Truthiness of a [str]: non-empty. *)
Definition truthy (s : str) : bool :=
  match s with
  | [] => false
  | _ :: _ => true
  end.

(** [str.upper()] and [str.lower()] on the ASCII letters. The handler
    upper-cases only the method names it passes itself, and header names
    are compared with ASCII names, where no other Latin-1 letter can
    match. *)
Definition upper (s : str) : str :=
  List.map (fun c => if between 97 122 c then c - 32 else c) s.

Definition lower (s : str) : str :=
  List.map (fun c => if between 65 90 c then c + 32 else c) s.

(** [s.split(sep)] for a one-character separator. *)
Fixpoint split (sep : N) (s : str) : list str :=
  match s with
  | [] => [[]]
  | c :: s' =>
      if c =? sep then [] :: split sep s'
      else match split sep s' with
           | [] => [[c]]
           | part :: parts => (c :: part) :: parts
           end
  end.

Fixpoint startswith (s prefix : str) : bool :=
  match prefix, s with
  | [], _ => true
  | p :: prefix', c :: s' => (c =? p) && startswith s' prefix'
  | _ :: _, [] => false
  end.

(** [sep.join(parts)]. *)
Fixpoint join (sep : str) (parts : list str) : str :=
  match parts with
  | [] => []
  | [p] => p
  | p :: rest => p ++ sep ++ join sep rest
  end.

(** [str(n)] for an [int]. *)
Definition str_of_Z (z : Z) : str :=
  lit (DecimalString.NilZero.string_of_int (Z.to_int z)).

(** The value [int(s)] computes for a [str] of Latin-1 characters, base
    10: surrounding whitespace, an optional sign, decimal digits with single
    underscores between them; [None] where [int] raises ValueError for the
    form of the text. The whitespace [int] skips is not that of
    [str.strip]: below U+007F it is C's (tab to carriage return, and the
    space), so U+001C to U+001F are refused; above, Latin-1 has U+0085 and
    U+00A0. *)
Definition is_space (c : N) : bool :=
  between 9 13 c || (c =? 32) || (c =? 133) || (c =? 160).

Fixpoint lstrip (s : str) : str :=
  match s with
  | [] => []
  | c :: s' => if is_space c then lstrip s' else s
  end.

Definition strip (s : str) : str :=
  List.rev (lstrip (List.rev (lstrip s))).

Fixpoint digits_value (acc : N) (after_digit : bool) (s : str) : option N :=
  match s with
  | [] => if after_digit then Some acc else None
  | c :: s' =>
      if between 48 57 c then digits_value (acc * 10 + (c - 48)) true s'
      else if (c =? 95) && after_digit then digits_value acc false s'
      else None
  end.

Definition int_of_str (s : str) : option Z :=
  match strip s with
  | 43 :: d => option_map Z.of_N (digits_value 0 false d)
  | 45 :: d => option_map (fun n => (- Z.of_N n)%Z) (digits_value 0 false d)
  | d => option_map Z.of_N (digits_value 0 false d)
  end.

(** A [dict] with [str] keys, in insertion order. *)
Definition dict := list (str * str).

Fixpoint dict_get (d : dict) (k : str) : option str :=
  match d with
  | [] => None
  | (k', v) :: d' => if str_eqb k' k then Some v else dict_get d' k
  end.

Fixpoint dict_set (d : dict) (k v : str) : dict :=
  match d with
  | [] => [(k, v)]
  | (k', v') :: d' =>
      if str_eqb k' k then (k, v) :: d' else (k', v') :: dict_set d' k v
  end.

(** ** json.dumps on a flat dict of strings and [None] *)

Inductive jvalue :=
| JNull
| JString (s : str).

Definition hexdigit (n : N) : N := if n <? 10 then 48 + n else 87 + n.

Definition u_escape (n : N) : str :=
  [92; 117; hexdigit (n / 4096); hexdigit (n / 256 mod 16);
   hexdigit (n / 16 mod 16); hexdigit (n mod 16)].

(** The default [ensure_ascii=True] escaping: everything outside
    [' '..'~'] is escaped, code points beyond the BMP as a surrogate
    pair. *)
Definition json_escape (c : N) : str :=
  if c =? 34 then [92; 34]
  else if c =? 92 then [92; 92]
  else if c =? 10 then [92; 110]
  else if c =? 13 then [92; 114]
  else if c =? 9 then [92; 116]
  else if c =? 8 then [92; 98]
  else if c =? 12 then [92; 102]
  else if between 32 126 c then [c]
  else if c <? 65536 then u_escape c
  else u_escape (55296 + (c - 65536) / 1024 mod 1024)
       ++ u_escape (56320 + (c - 65536) mod 1024).

Definition json_string (s : str) : str :=
  34 :: List.flat_map json_escape s ++ [34].

Definition json_value (v : jvalue) : str :=
  match v with
  | JNull => lit "null"
  | JString s => json_string s
  end.

Definition json_dumps (d : list (str * jvalue)) : str :=
  lit "{"
  ++ join (lit ", ")
       (List.map (fun kv => json_string (fst kv) ++ lit ": "
                            ++ json_value (snd kv)) d)
  ++ lit "}".

(** ** Exceptions and outcomes *)

Inductive exn :=
| HTTPError (code : Z) (body : bytes)
    (** urllib.error.HTTPError: [e.code] and what [e.read()] returns *)
| URLError (reason : str)
    (** urllib.error.URLError: [str(e.reason)] *)
| ValueError (arg : str)
    (** [int()] on a string that is no number *)
| UnicodeDecodeError (input : bytes)
| UnicodeEncodeError (input : str)
| OverflowError (n : Z)
    (** [read(n)] with [n] above [sys.maxsize] *)
| OtherError (text : str).
    (** any other exception raised while the upstream call is under way,
        a TimeoutError or RemoteDisconnected while the answer is awaited
        for one: [str(e)] *)

Inductive outcome (A : Type) :=
| Returns (a : A)
| Raises (e : exn).
Arguments Returns {A} a.
Arguments Raises {A} e.

Definition encode (s : str) : outcome bytes :=
  match utf8_encode s with
  | Some b => Returns b
  | None => Raises (UnicodeEncodeError s)
  end.

Definition decode (e : errors) (b : bytes) : outcome str :=
  match utf8_decode e b with
  | Some s => Returns s
  | None => Raises (UnicodeDecodeError b)
  end.

(** [sys.get_int_max_str_digits()], as the interpreter starts: a decimal
    text of more digits is refused. *)
Definition int_max_str_digits : N := 4300.

(** The decimal digits of a text, leading zeros included. *)
Definition digit_count (s : str) : N :=
  N.of_nat (List.length (List.filter (between 48 57) s)).

(** [int(s)]: ValueError for a text that is no integer, and for one of more
    than [int_max_str_digits] digits. *)
Definition int (s : str) : outcome Z :=
  match int_of_str s with
  | Some z =>
      if int_max_str_digits <? digit_count s then Raises (ValueError s)
      else Returns z
  | None => Raises (ValueError s)
  end.

Definition obind {A B} (m : outcome A) (f : A -> outcome B) : outcome B :=
  match m with
  | Returns a => f a
  | Raises e => Raises e
  end.

(** ** generate_signature *)

Definition generate_signature
    (secret timestamp method path body : str) : outcome str :=
  let message := timestamp ++ upper method ++ path ++ body in
  obind (encode secret) (fun key =>
  obind (encode message) (fun msg =>
  decode Strict (b64encode (hmac_sha256 key msg)))).

(** ** The request, the upstream and the handler's state *)

(** An inbound request as [http.server] hands it to the handler: the
    request target and the parsed header block, both still as the bytes
    received (the server decodes them as ISO-8859-1), and the input stream
    [rfile] positioned after the headers. *)
Record Request := {
  raw_path : bytes;
  raw_headers : list (bytes * bytes);
  rfile : bytes
}.

(** [sys.maxsize] of a 64-bit interpreter. *)
Definition maxsize : Z := 9223372036854775807.

(** [self.rfile.read(n)] for a positive [n]: OverflowError when [n] is no
    index-sized integer; otherwise the next [n] bytes, or all there are
    when the stream ends before. (For an [n] beyond what the machine can
    hold in memory the read raises MemoryError instead of waiting for the
    end of the stream; the properties below that need a body read take a
    request that carries the [n] bytes.) *)
Definition rfile_read (self : Request) (n : Z) : outcome bytes :=
  if (maxsize <? n)%Z then Raises (OverflowError n)
  else Returns (firstn (Z.to_nat n) (rfile self)).

Definition decode_headers (hs : list (bytes * bytes)) : list (str * str) :=
  List.map (fun kv => (latin1_decode (fst kv), latin1_decode (snd kv))) hs.

(** [self.path] and [self.headers]. *)
Definition path (self : Request) : str := latin1_decode (raw_path self).
Definition headers (self : Request) : list (str * str) :=
  decode_headers (raw_headers self).

(** [Message.get_all(name)]: header names compare case-insensitively. *)
Definition get_all (hs : list (str * str)) (name : str) : list str :=
  List.map snd
    (List.filter (fun kv => str_eqb (lower (fst kv)) (lower name)) hs).

(** [self.headers.get(name)]: the first header of that name. *)
Definition headers_get (hs : list (str * str)) (name : str) : option str :=
  List.hd_error (get_all hs name).

(** What the handler passes to [urllib.request.Request]. *)
Record OutRequest := {
  out_url : str;
  out_data : option bytes;
  out_headers : dict;
  out_method : str
}.

(** The object [urlopen] returns. *)
Record UpstreamResponse := {
  up_status : Z;
  up_raw_headers : list (bytes * bytes);
  up_body : bytes
}.

(** [response.getheader(name)]: the values of that name joined by a comma
    and a space, [None] without one. *)
Definition getheader (r : UpstreamResponse) (name : str) : option str :=
  match get_all (decode_headers (up_raw_headers r)) name with
  | [] => None
  | vs => Some (join (lit ", ") vs)
  end.

(** Everything the handler obtains from outside: the clock, already as
    [int(time.time() * 1000)] (the integer part of a float, so of far
    fewer digits than [str] would refuse); the network, as the outcome of
    [urlopen] on a request; the [Server] and [Date] values [send_response]
    adds; and [str(e)] for an exception. *)
Record Runtime := {
  time_ms : Z;
  urlopen : OutRequest -> outcome UpstreamResponse;
  version_string : str;
  date_time_string : str;
  exception_text : exn -> str
}.

(** What the handler has done so far: status lines and headers sent,
    whether the header block is finished, the bytes written to [wfile],
    and the upstream calls made. The request is one of HTTP/1.0 or later,
    for which the inherited methods do send a header block. Logging to
    stdout is left out. *)
Record Handler := {
  status_lines : list Z;
  sent_headers : list (str * str);
  headers_ended : bool;
  wfile : bytes;
  upstream_calls : list OutRequest
}.

Definition fresh : Handler :=
  {| status_lines := []; sent_headers := []; headers_ended := false;
     wfile := []; upstream_calls := [] |}.

(** Handler code: it changes the handler's state and returns or raises. *)
Definition M (A : Type) : Type := Handler -> outcome A * Handler.

Definition ret {A} (a : A) : M A := fun h => (Returns a, h).

Definition bind {A B} (m : M A) (f : A -> M B) : M B :=
  fun h =>
    match m h with
    | (Returns a, h') => f a h'
    | (Raises e, h') => (Raises e, h')
    end.

Definition lift {A} (o : outcome A) : M A := fun h => (o, h).

Definition try_except {A} (m : M A) (handle : exn -> M A) : M A :=
  fun h =>
    match m h with
    | (Returns a, h') => (Returns a, h')
    | (Raises e, h') => handle e h'
    end.

Declare Scope handler_scope.
Delimit Scope handler_scope with handler.
Notation "x <- m ;; k" := (bind m (fun x => k))
  (at level 61, m at next level, right associativity) : handler_scope.
Notation "m ;; k" := (bind m (fun _ => k))
  (at level 61, right associativity) : handler_scope.

Fixpoint for_each {A} (xs : list A) (body : A -> M unit) : M unit :=
  match xs with
  | [] => ret tt
  | x :: xs' => bind (body x) (fun _ => for_each xs' body)
  end.

Definition WEEX_API_BASE : str := lit "https://api-contract.weex.com".

(** ** CORSProxyHandler *)

Section CORSProxyHandler.

Variable rt : Runtime.
Variable self : Request.

(** [SimpleHTTPRequestHandler.do_GET] and [send_error], inherited. *)
Variable super_do_GET : M unit.
Variable send_error : Z -> str -> M unit.

Local Open Scope handler_scope.

(** Inherited [send_header]: one more line of the header block. *)
Definition send_header (k v : str) : M unit :=
  fun h =>
    (Returns tt,
     {| status_lines := status_lines h;
        sent_headers := sent_headers h ++ [(k, v)];
        headers_ended := headers_ended h;
        wfile := wfile h;
        upstream_calls := upstream_calls h |}).

(** Inherited [send_response]: the status line, then the [Server] and
    [Date] headers ([log_request] ends in the handler's silent
    [log_message]). *)
Definition send_response (code : Z) : M unit :=
  (fun h =>
     (Returns tt,
      {| status_lines := status_lines h ++ [code];
         sent_headers := sent_headers h;
         headers_ended := headers_ended h;
         wfile := wfile h;
         upstream_calls := upstream_calls h |})) ;;
  send_header (lit "Server") (version_string rt) ;;
  send_header (lit "Date") (date_time_string rt).

(** Inherited [end_headers]: the header block is finished. *)
Definition super_end_headers : M unit :=
  fun h =>
    (Returns tt,
     {| status_lines := status_lines h;
        sent_headers := sent_headers h;
        headers_ended := true;
        wfile := wfile h;
        upstream_calls := upstream_calls h |}).

(** [self.wfile.write(b)]. *)
Definition wfile_write (b : bytes) : M unit :=
  fun h =>
    (Returns tt,
     {| status_lines := status_lines h;
        sent_headers := sent_headers h;
        headers_ended := headers_ended h;
        wfile := wfile h ++ b;
        upstream_calls := upstream_calls h |}).

(** [urlopen(req, timeout=30)], recording the call. *)
Definition call_urlopen (req : OutRequest) : M UpstreamResponse :=
  fun h =>
    (urlopen rt req,
     {| status_lines := status_lines h;
        sent_headers := sent_headers h;
        headers_ended := headers_ended h;
        wfile := wfile h;
        upstream_calls := upstream_calls h ++ [req] |}).

Definition end_headers : M unit :=
  send_header (lit "Access-Control-Allow-Origin") (lit "*") ;;
  send_header (lit "Access-Control-Allow-Methods")
              (lit "GET, POST, PUT, DELETE, OPTIONS") ;;
  send_header (lit "Access-Control-Allow-Headers") (lit "*") ;;
  send_header (lit "Access-Control-Expose-Headers") (lit "*") ;;
  send_header (lit "Cache-Control")
              (lit "no-cache, no-store, must-revalidate") ;;
  super_end_headers.

Definition do_OPTIONS : M unit :=
  send_response 200 ;;
  end_headers.

(** The [try] block of [_proxy_request]. *)
Definition proxy_try (method : str) : M unit :=
  let path_parts := split 63 (path self) in
  let base_path := nth 0 path_parts [] in
  let query_string :=
    if (1 <? List.length path_parts)%nat then nth 1 path_parts [] else [] in
  let target_url := WEEX_API_BASE ++ path self in
  content_length <-
    match headers_get (headers self) (lit "Content-Length") with
    | Some v => lift (int v)
    | None => ret 0%Z
    end ;;
  body <-
    (if (0 <? content_length)%Z
     then lift (obind (rfile_read self content_length) (decode Strict))
     else ret []) ;;
  let get_or_empty name :=
    match headers_get (headers self) name with
    | Some v => v
    | None => []
    end in
  let api_key := get_or_empty (lit "ACCESS-KEY") in
  let api_secret := get_or_empty (lit "ACCESS-SIGN") in
  let passphrase := get_or_empty (lit "ACCESS-PASSPHRASE") in
  let forward_headers : dict :=
    [(lit "Content-Type", lit "application/json");
     (lit "locale",
      match headers_get (headers self) (lit "locale") with
      | Some v => v
      | None => lit "en-US"
      end)] in
  forward_headers <-
    (if truthy api_key && truthy api_secret && truthy passphrase then
       let timestamp := str_of_Z (time_ms rt) in
       let sign_path :=
         if str_eqb (upper method) (lit "GET") && truthy query_string
         then base_path ++ lit "?" ++ query_string
         else base_path in
       let sign_body :=
         if str_eqb (upper method) (lit "POST") then body else [] in
       signature <-
         lift (generate_signature api_secret timestamp method
                                  sign_path sign_body) ;;
       let forward_headers :=
         dict_set forward_headers (lit "ACCESS-KEY") api_key in
       let forward_headers :=
         dict_set forward_headers (lit "ACCESS-SIGN") signature in
       let forward_headers :=
         dict_set forward_headers (lit "ACCESS-PASSPHRASE") passphrase in
       let forward_headers :=
         dict_set forward_headers (lit "ACCESS-TIMESTAMP") timestamp in
       ret forward_headers
     else ret forward_headers) ;;
  data <-
    (if truthy body
     then b <- lift (encode body) ;; ret (Some b)
     else ret None) ;;
  let req :=
    {| out_url := target_url; out_data := data;
       out_headers := forward_headers; out_method := method |} in
  response <- call_urlopen req ;;
  let response_body := up_body response in
  send_response (up_status response) ;;
  send_header (lit "Content-Type")
    (match getheader response (lit "Content-Type") with
     | Some v => v
     | None => lit "application/json"
     end) ;;
  for_each [lit "X-RateLimit-Limit"; lit "X-RateLimit-Remaining";
            lit "X-RateLimit-Reset"]
    (fun header =>
       match getheader response header with
       | Some value => if truthy value then send_header header value
                       else ret tt
       | None => ret tt
       end) ;;
  end_headers ;;
  wfile_write response_body.

(** The [except] clauses of [_proxy_request], in their order:
    HTTPError, URLError, Exception. *)
Definition proxy_except (e : exn) : M unit :=
  match e with
  | HTTPError code body =>
      error_body <- lift (decode Replace body) ;;
      send_response code ;;
      send_header (lit "Content-Type") (lit "application/json") ;;
      end_headers ;;
      out <- lift (encode error_body) ;;
      wfile_write out
  | URLError reason =>
      send_response 502 ;;
      send_header (lit "Content-Type") (lit "application/json") ;;
      end_headers ;;
      let error_response :=
        json_dumps
          [(lit "code", JString (lit "502"));
           (lit "msg",
            JString (lit "Failed to connect to WEEX API: " ++ reason));
           (lit "requestTime", JNull);
           (lit "data", JNull)] in
      out <- lift (encode error_response) ;;
      wfile_write out
  | _ =>
      send_response 500 ;;
      send_header (lit "Content-Type") (lit "application/json") ;;
      end_headers ;;
      let error_response :=
        json_dumps
          [(lit "code", JString (lit "500"));
           (lit "msg",
            JString (lit "Proxy error: " ++ exception_text rt e));
           (lit "requestTime", JNull);
           (lit "data", JNull)] in
      out <- lift (encode error_response) ;;
      wfile_write out
  end.

Definition _proxy_request (method : str) : M unit :=
  try_except (proxy_try method) proxy_except.

Definition do_GET : M unit :=
  if startswith (path self) (lit "/capi/")
  then _proxy_request (lit "GET")
  else super_do_GET.

Definition do_POST : M unit :=
  if startswith (path self) (lit "/capi/")
  then _proxy_request (lit "POST")
  else send_error 404 (lit "Not Found").

End CORSProxyHandler.

(** ** Views of [_proxy_request]

    The pieces of [proxy_try], named so that properties can speak of them;
    [proxy_try_outbound] below shows that [proxy_try] is their
    composition. *)

(** [self.headers.get(name, '')]. *)
Definition header_or_empty (self : Request) (name : str) : str :=
  match headers_get (headers self) name with
  | Some v => v
  | None => []
  end.

(** The test [if api_key and api_secret and passphrase]. *)
Definition authenticated (self : Request) : bool :=
  truthy (header_or_empty self (lit "ACCESS-KEY"))
  && truthy (header_or_empty self (lit "ACCESS-SIGN"))
  && truthy (header_or_empty self (lit "ACCESS-PASSPHRASE")).

(** [content_length], and the bytes [self.rfile.read(content_length)]
    returns when the handler reads at all and the read succeeds. *)
Definition content_length (self : Request) : outcome Z :=
  match headers_get (headers self) (lit "Content-Length") with
  | Some v => int v
  | None => Returns 0%Z
  end.

Definition body_bytes (self : Request) (content_length : Z) : bytes :=
  if (0 <? content_length)%Z
  then firstn (Z.to_nat content_length) (rfile self)
  else [].

(** [body]. *)
Definition read_body (self : Request) : outcome str :=
  obind (content_length self) (fun n =>
    if (0 <? n)%Z then obind (rfile_read self n) (decode Strict)
    else Returns []).

(** The request carries the body its Content-Length announces: at least
    [n] bytes follow the headers, and no more than an index can count. *)
Definition body_received (self : Request) (n : Z) : Prop :=
  (n <= Z.of_nat (List.length (rfile self)) <= maxsize)%Z.

(** [base_path], [query_string], [sign_path] and [sign_body]. *)
Definition base_path (self : Request) : str :=
  nth 0 (split 63 (path self)) [].

Definition query_string (self : Request) : str :=
  let path_parts := split 63 (path self) in
  if (1 <? List.length path_parts)%nat then nth 1 path_parts [] else [].

Definition sign_path (self : Request) (method : str) : str :=
  if str_eqb (upper method) (lit "GET") && truthy (query_string self)
  then base_path self ++ lit "?" ++ query_string self
  else base_path self.

Definition sign_body (method body : str) : str :=
  if str_eqb (upper method) (lit "POST") then body else [].

(** [forward_headers] as passed to the upstream request. *)
Definition public_headers (self : Request) : dict :=
  [(lit "Content-Type", lit "application/json");
   (lit "locale",
    match headers_get (headers self) (lit "locale") with
    | Some v => v
    | None => lit "en-US"
    end)].

Definition forward_headers
    (rt : Runtime) (self : Request) (method body : str) : outcome dict :=
  if authenticated self then
    obind (generate_signature (header_or_empty self (lit "ACCESS-SIGN"))
             (str_of_Z (time_ms rt)) method
             (sign_path self method) (sign_body method body))
      (fun signature =>
         Returns
           (public_headers self
            ++ [(lit "ACCESS-KEY", header_or_empty self (lit "ACCESS-KEY"));
                (lit "ACCESS-SIGN", signature);
                (lit "ACCESS-PASSPHRASE",
                 header_or_empty self (lit "ACCESS-PASSPHRASE"));
                (lit "ACCESS-TIMESTAMP", str_of_Z (time_ms rt))]))
  else Returns (public_headers self).

(** The request handed to [urlopen], if the handler gets that far. *)
Definition outbound
    (rt : Runtime) (self : Request) (method : str) : outcome OutRequest :=
  obind (read_body self) (fun body =>
  obind (forward_headers rt self method body) (fun hs =>
  obind (if truthy body
         then obind (encode body) (fun b => Returns (Some b))
         else Returns None) (fun data =>
  Returns {| out_url := WEEX_API_BASE ++ path self; out_data := data;
             out_headers := hs; out_method := method |}))).

(** The CORS headers [end_headers] adds. *)
Definition cors_headers : list (str * str) :=
  [(lit "Access-Control-Allow-Origin", lit "*");
   (lit "Access-Control-Allow-Methods", lit "GET, POST, PUT, DELETE, OPTIONS");
   (lit "Access-Control-Allow-Headers", lit "*");
   (lit "Access-Control-Expose-Headers", lit "*");
   (lit "Cache-Control", lit "no-cache, no-store, must-revalidate")].

(** The handler's state after one complete response on top of [h]: status
    line, [Server] and [Date], the given headers, the CORS headers, then
    the body. *)
Definition responded
    (rt : Runtime) (h : Handler) (code : Z) (hs : list (str * str))
    (body : bytes) : Handler :=
  {| status_lines := status_lines h ++ [code];
     sent_headers :=
       sent_headers h
       ++ [(lit "Server", version_string rt);
           (lit "Date", date_time_string rt)]
       ++ hs ++ cors_headers;
     headers_ended := true;
     wfile := wfile h ++ body;
     upstream_calls := upstream_calls h |}.

(** The content type the handler reports for an upstream response. *)
Definition content_type_of (r : UpstreamResponse) : str :=
  match getheader r (lit "Content-Type") with
  | Some v => v
  | None => lit "application/json"
  end.

(** The rate-limit headers the handler copies from the upstream. *)
Definition rate_limit_headers (r : UpstreamResponse) : list (str * str) :=
  List.flat_map
    (fun header =>
       match getheader r header with
       | Some value => if truthy value then [(header, value)] else []
       | None => []
       end)
    [lit "X-RateLimit-Limit"; lit "X-RateLimit-Remaining";
     lit "X-RateLimit-Reset"].

(** The handler's state once [urlopen] has been called with [req]. *)
Definition called (h : Handler) (req : OutRequest) : Handler :=
  {| status_lines := status_lines h;
     sent_headers := sent_headers h;
     headers_ended := headers_ended h;
     wfile := wfile h;
     upstream_calls := upstream_calls h ++ [req] |}.

(** The error envelope [json.dumps] is applied to. *)
Definition error_envelope (code msg : str) : list (str * jvalue) :=
  [(lit "code", JString code); (lit "msg", JString msg);
   (lit "requestTime", JNull); (lit "data", JNull)].

(** [json.dumps(d).encode()]. *)
Definition dumps_bytes (d : list (str * jvalue)) : bytes :=
  List.map byte_of_N (json_dumps d).

(** [b.decode('utf-8', errors='replace').encode()]. *)
Definition reencode (b : bytes) : bytes :=
  match utf8_decode Replace b with
  | Some s =>
      match utf8_encode s with
      | Some out => out
      | None => []
      end
  | None => []
  end.

(** The handler's state after the [except] clause for [e] has run on top
    of [h]. *)
Definition after_except (rt : Runtime) (h : Handler) (e : exn) : Handler :=
  let json := [(lit "Content-Type", lit "application/json")] in
  match e with
  | HTTPError code body => responded rt h code json (reencode body)
  | URLError reason =>
      responded rt h 502 json
        (dumps_bytes
           (error_envelope (lit "502")
              (lit "Failed to connect to WEEX API: " ++ reason)))
  | _ =>
      responded rt h 500 json
        (dumps_bytes
           (error_envelope (lit "500")
              (lit "Proxy error: " ++ exception_text rt e)))
  end.

(** The handler's state after [_proxy_request] has run on top of [h]. *)
Definition after_proxy_request
    (rt : Runtime) (self : Request) (method : str) (h : Handler) : Handler :=
  match outbound rt self method with
  | Raises e => after_except rt h e
  | Returns req =>
      match urlopen rt req with
      | Raises e => after_except rt (called h req) e
      | Returns resp =>
          responded rt (called h req) (up_status resp)
            ((lit "Content-Type", content_type_of resp)
               :: rate_limit_headers resp)
            (up_body resp)
      end
  end.

(** A header that is absent or empty. *)
Definition missing (self : Request) (name : str) : Prop :=
  headers_get (headers self) name = None
  \/ headers_get (headers self) name = Some [].


(** Text that [str.encode()] accepts. *)
Definition encodable (s : str) : Prop :=
  exists b, utf8_encode s = Some b.

(** Text decoded from ISO-8859-1. *)
Definition is_latin1 (s : str) : Prop := Forall (fun c => c < 256) s.

(** ** Sample requests and upstreams *)

Module Sample.

Definition ok_response : UpstreamResponse :=
  {| up_status := 200;
     up_raw_headers := [(blit "Content-Type", blit "application/json");
                        (blit "X-RateLimit-Remaining", blit "9")];
     up_body := blit "{}" |}.

(** A runtime at a fixed instant whose upstream always answers [net]. *)
Definition runtime (net : outcome UpstreamResponse) : Runtime :=
  {| time_ms := 1700000000000;
     urlopen := fun _ => net;
     version_string := lit "SimpleHTTP/0.6 Python/3.11.4";
     date_time_string := lit "Wed, 04 Nov 2026 00:00:00 GMT";
     exception_text :=
       fun e =>
         match e with
         | UnicodeDecodeError _ =>
             lit "'utf-8' codec can't decode byte 0xff in position 0: invalid start byte"
         | OverflowError _ =>
             lit "cannot fit 'int' into an index-sized integer"
         | OtherError text => text
         | _ => lit "error"
         end |}.

Definition credentials : list (bytes * bytes) :=
  [(blit "ACCESS-KEY", blit "K"); (blit "ACCESS-SIGN", blit "S");
   (blit "ACCESS-PASSPHRASE", blit "P")].

(** [{"symbol":"cmt_btcusdt"}] *)
Definition order_body : bytes :=
  blit "{" ++ x22 :: blit "symbol" ++ x22 :: x3a :: x22
    :: blit "cmt_btcusdt" ++ x22 :: blit "}".

(** GET /capi/v2/market/ticker?symbol=cmt_btcusdt, no credentials. *)
Definition ticker_public : Request :=
  {| raw_path := blit "/capi/v2/market/ticker?symbol=cmt_btcusdt";
     raw_headers := [(blit "Host", blit "localhost:8888")];
     rfile := [] |}.

(** The same request with only the key and the passphrase. *)
Definition ticker_no_secret : Request :=
  {| raw_path := blit "/capi/v2/market/ticker?symbol=cmt_btcusdt";
     raw_headers := [(blit "ACCESS-KEY", blit "K");
                     (blit "ACCESS-PASSPHRASE", blit "P")];
     rfile := [] |}.

(** GET /capi/v2/account/assets with credentials, no query string, and
    a two-byte body. *)
Definition assets_signed : Request :=
  {| raw_path := blit "/capi/v2/account/assets";
     raw_headers := (blit "Content-Length", blit "2") :: credentials;
     rfile := blit "{}" |}.

(** GET with credentials and a query string that itself holds a [?]. *)
Definition ticker_signed_nested_query : Request :=
  {| raw_path := blit "/capi/v2/market/ticker?symbol=cmt_btcusdt?x=1";
     raw_headers := credentials;
     rfile := [] |}.

(** POST /capi/v2/order/placeOrder?src=docs with credentials and
    [order_body]. *)
Definition place_order : Request :=
  {| raw_path := blit "/capi/v2/order/placeOrder?src=docs";
     raw_headers := (blit "Content-Length", blit "24") :: credentials;
     rfile := order_body |}.


End Sample.

(** ** Start-up *)

(** [PORT = int(sys.argv[1]) if len(sys.argv) > 1 else 8888], evaluated when
    the module is loaded. *)
Definition PORT (argv : list str) : outcome Z :=
  if (1 <? List.length argv)%nat then int (nth 1 argv []) else Returns 8888%Z.

(** ** server.py: the static server's handler *)

Module StaticServer.

Definition PORT (argv : list str) : outcome Z :=
  if (1 <? List.length argv)%nat then int (nth 1 argv []) else Returns 8080%Z.

Section CORSRequestHandler.

Variable rt : Runtime.

Local Open Scope handler_scope.

Definition end_headers : M unit :=
  send_header (lit "Access-Control-Allow-Origin") (lit "*") ;;
  send_header (lit "Access-Control-Allow-Methods")
              (lit "GET, POST, PUT, DELETE, OPTIONS") ;;
  send_header (lit "Access-Control-Allow-Headers") (lit "*") ;;
  send_header (lit "Access-Control-Expose-Headers") (lit "*") ;;
  send_header (lit "Cache-Control")
              (lit "no-cache, no-store, must-revalidate") ;;
  super_end_headers.

(** [send_response] logs here through the handler's printing
    [log_message]; stdout is left out as before. *)
Definition do_OPTIONS : M unit :=
  send_response rt 200 ;;
  end_headers.

End CORSRequestHandler.

End StaticServer.

(** ** test_api.py: the direct client *)

Module TestApi.

Definition BASE_URL : str := lit "https://api-contract.weex.com".

(** A call of [requests.get] or [requests.post] as [make_request] issues
    it. *)
Inductive call :=
| Get (url : str) (headers : dict)
| Post (url : str) (headers : dict) (data : str).

Definition call_url (c : call) : str :=
  match c with
  | Get url _ => url
  | Post url _ _ => url
  end.

Definition call_headers (c : call) : dict :=
  match c with
  | Get _ headers => headers
  | Post _ headers _ => headers
  end.

(** What [make_request] returns: the decoded JSON of the response, of a
    type [J] left open, or the dict [{"error": str(e)}]. *)
Inductive reply (J : Type) :=
| Json (j : J)
| ErrorDict (msg : str).
Arguments Json {J} j.
Arguments ErrorDict {J} msg.

(** The module's globals and its surroundings: the credentials read from
    the environment when the module is loaded, the clock as
    [int(time.time() * 1000)], and the network as the outcome of a call
    followed by [response.json()]. *)
Record Client (J : Type) := {
  API_KEY : str;
  API_SECRET : str;
  PASSPHRASE : str;
  client_time_ms : Z;
  requests_call : call -> outcome J;
  client_exception_text : exn -> str
}.
Arguments API_KEY {J} c.
Arguments API_SECRET {J} c.
Arguments PASSPHRASE {J} c.
Arguments client_time_ms {J} c.
Arguments requests_call {J} c.
Arguments client_exception_text {J} c.

Section WithClient.

Variable J : Type.
Variable c : Client J.

Definition generate_signature
    (timestamp method path body : str) : outcome str :=
  let message := timestamp ++ upper method ++ path ++ body in
  obind (encode (API_SECRET c)) (fun key =>
  obind (encode message) (fun msg =>
  decode Strict (b64encode (hmac_sha256 key msg)))).

(** Truthiness of an optional dict: neither [None] nor empty. *)
Definition given {A} (d : option (list A)) : bool :=
  match d with
  | Some (_ :: _) => true
  | _ => false
  end.

Definition items {A} (d : option (list A)) : list A :=
  match d with
  | Some l => l
  | None => []
  end.

(** ["&".join([f"{k}={v}" for k, v in params.items()])], for parameters
    that are strings. *)
Definition query_of (params : option (list (str * str))) : str :=
  join (lit "&")
    (List.map (fun kv => fst kv ++ lit "=" ++ snd kv) (items params)).

(** [make_request], with the calls it issued. The signature is computed
    before the [try]; inside it, whatever the call or [response.json()]
    raises ends in the error dict. Printing is left out. *)
Definition make_request
    (method path : str) (params : option (list (str * str)))
    (body : option (list (str * jvalue)))
    : outcome (reply J) * list call :=
  let timestamp := str_of_Z (client_time_ms c) in
  let url := BASE_URL ++ path in
  let url :=
    if given params then url ++ lit "?" ++ query_of params else url in
  let body_str := if given body then json_dumps (items body) else [] in
  let sign_path :=
    if str_eqb (upper method) (lit "GET") && given params
    then path ++ lit "?" ++ query_of params
    else path in
  match generate_signature timestamp method sign_path
          (if negb (str_eqb (upper method) (lit "GET")) then body_str
           else [])
  with
  | Raises e => (Raises e, [])
  | Returns signature =>
      let headers : dict :=
        [(lit "ACCESS-KEY", API_KEY c);
         (lit "ACCESS-SIGN", signature);
         (lit "ACCESS-PASSPHRASE", PASSPHRASE c);
         (lit "ACCESS-TIMESTAMP", timestamp);
         (lit "Content-Type", lit "application/json");
         (lit "locale", lit "en-US")] in
      let finish (k : call) :=
        match requests_call c k with
        | Returns result => (Returns (Json result), [k])
        | Raises e => (Returns (ErrorDict (client_exception_text c e)), [k])
        end in
      if str_eqb (upper method) (lit "GET") then finish (Get url headers)
      else if str_eqb (upper method) (lit "POST")
      then finish (Post url headers body_str)
      else (Returns (ErrorDict (lit "Unsupported method: " ++ method)), [])
  end.

End WithClient.

End TestApi.

(** ** Reading decimal digits *)

(** The value of a digit sequence read after [acc], as [int] reads it. *)
Fixpoint uint_value (acc : N) (d : Decimal.uint) : N :=
  match d with
  | Decimal.Nil => acc
  | Decimal.D0 d => uint_value (acc * 10 + 0) d
  | Decimal.D1 d => uint_value (acc * 10 + 1) d
  | Decimal.D2 d => uint_value (acc * 10 + 2) d
  | Decimal.D3 d => uint_value (acc * 10 + 3) d
  | Decimal.D4 d => uint_value (acc * 10 + 4) d
  | Decimal.D5 d => uint_value (acc * 10 + 5) d
  | Decimal.D6 d => uint_value (acc * 10 + 6) d
  | Decimal.D7 d => uint_value (acc * 10 + 7) d
  | Decimal.D8 d => uint_value (acc * 10 + 8) d
  | Decimal.D9 d => uint_value (acc * 10 + 9) d
  end.

(** Text made of decimal digits. *)
Definition is_digits (s : str) : Prop :=
  Forall (fun c => between 48 57 c = true) s.

(** ** A sample client *)

Module ClientSample.

(** The client at the instant of [Sample.runtime], with the credentials of
    [Sample.credentials], whose calls all answer [net]. *)
Definition client (net : outcome unit) : TestApi.Client unit :=
  {| TestApi.API_KEY := lit "K";
     TestApi.API_SECRET := lit "S";
     TestApi.PASSPHRASE := lit "P";
     TestApi.client_time_ms := 1700000000000;
     TestApi.requests_call := fun _ => net;
     TestApi.client_exception_text := fun _ => lit "error" |}.

End ClientSample.

(** * Properties *)

(** ** The runtime model against known values *)

Example sha256_empty :
  hex_of_bytes (SHA256.digest [])
  = "e3b0c44298fc1c149afbf4c8996fb92427ae41e4649b934ca495991b7852b855"%string.
Proof. vm_compute. reflexivity. Qed.

Example sha256_abc :
  hex_of_bytes (SHA256.digest (blit "abc"))
  = "ba7816bf8f01cfea414140de5dae2223b00361a396177a9cb410ff61f20015ad"%string.
Proof. vm_compute. reflexivity. Qed.

Example sha256_two_blocks :
  hex_of_bytes
    (SHA256.digest
       (blit "abcdbcdecdefdefgefghfghighijhijkijkljklmklmnlmnomnopnopq"))
  = "248d6a61d20638b8e5c026930c3e6039a33ce45964ff2167f6ecedd419db06c1"%string.
Proof. vm_compute. reflexivity. Qed.

Example hmac_rfc4231_case2 :
  hex_of_bytes (hmac_sha256 (blit "Jefe") (blit "what do ya want for nothing?"))
  = "5bdcc146bf60754e6a042426089575c75a003f089d2739839dec58b964ec3843"%string.
Proof. vm_compute. reflexivity. Qed.

Example hmac_rfc4231_case6 :
  hex_of_bytes
    (hmac_sha256 (repeat xaa 131)
       (blit "Test Using Larger Than Block-Size Key - Hash Key First"))
  = "60e431591ee0b67f0d8a26aacbf5b77f8e0bc6213728c5140546040f0ee37f54"%string.
Proof. vm_compute. reflexivity. Qed.

Example b64encode_padding :
  List.map (fun s => string_of_bytes (b64encode (blit s)))
    ["f"; "fo"; "foo"; "foob"; "fooba"; "foobar"]%string
  = ["Zg=="; "Zm8="; "Zm9v"; "Zm9vYg=="; "Zm9vYmE="; "Zm9vYmFy"]%string
  /\ string_of_bytes (b64encode [xfb; xff; xbe]) = "+/++"%string.
Proof. vm_compute. split; reflexivity. Qed.

(** Scenario 3 of the specification: secret [S], timestamp 1700000000000,
    POST /capi/v2/order/placeOrder with body [{"symbol":"cmt_btcusdt"}]. *)
Example hmac_scenario_3 :
  string_of_bytes
    (b64encode
       (hmac_sha256 (blit "S")
          (blit "1700000000000POST/capi/v2/order/placeOrder"
           ++ Sample.order_body)))
  = "iQO4PxKqbxZLslqGx+NctTUOeKxiykFkDLt4WOpkIrY="%string.
Proof. vm_compute. reflexivity. Qed.

(** [bytes.decode] on ill-formed input, as CPython answers. *)
Example utf8_decode_replace_samples :
  List.map (fun l => utf8_decode Replace (List.map byte_of_N l))
    [[226; 130]; [226; 130; 40]; [226; 40; 161]; [192; 175];
     [237; 160; 128]; [244; 144; 128; 128]; [240; 159; 152];
     [240; 159; 152; 128]; [255]; [104; 195; 169]]
  = [Some [65533]; Some [65533; 40]; Some [65533; 40; 65533];
     Some [65533; 65533]; Some [65533; 65533; 65533];
     Some [65533; 65533; 65533; 65533]; Some [65533];
     Some [128512]; Some [65533]; Some [104; 233]].
Proof. vm_compute. reflexivity. Qed.

Example utf8_decode_strict_samples :
  List.map (fun l => utf8_decode Strict (List.map byte_of_N l))
    [[226; 130]; [192; 175]; [237; 160; 128]; [244; 144; 128; 128];
     [240; 159; 152; 128]; [255]; [104; 195; 169]; [244; 143; 191; 191]]
  = [None; None; None; None; Some [128512]; None; Some [104; 233];
     Some [1114111]].
Proof. vm_compute. reflexivity. Qed.

Example int_of_str_samples :
  List.map (fun s => int_of_str (lit s))
    [" 12 "; "1_0"; "+5"; "-5"; "_1"; "1__0"; "1_"; ""; "007"; "0x10";
     "12a"; "- 5"]%string
  = [Some 12%Z; Some 10%Z; Some 5%Z; Some (-5)%Z; None; None; None; None;
     Some 7%Z; None; None; None].
Proof. vm_compute. reflexivity. Qed.

(** [int] takes U+00A0 and U+0085 for whitespace and refuses U+001C to
    U+001F; it refuses a text of more than 4300 digits, zeros included. *)
Example int_samples :
  int (160 :: lit "5") = Returns 5%Z
  /\ int (133 :: lit "5 ") = Returns 5%Z
  /\ int [28; 53] = Raises (ValueError [28; 53])
  /\ int [160; 28; 53] = Raises (ValueError [160; 28; 53])
  /\ int [50; 31] = Raises (ValueError [50; 31])
  /\ int (List.repeat 48 4300) = Returns 0%Z
  /\ int (List.repeat 48 4301) = Raises (ValueError (List.repeat 48 4301)).
Proof. vm_compute. repeat split. Qed.

(** A Content-Length above [sys.maxsize], or one that [int] refuses, ends
    in a 500 before anything is forwarded. *)
Example unreadable_length_samples :
  let run v :=
    snd (_proxy_request (Sample.runtime (Returns Sample.ok_response))
           {| raw_path := blit "/capi/v2/order/placeOrder";
              raw_headers :=
                (blit "Content-Length", v) :: Sample.credentials;
              rfile := blit "{}" |}
           (lit "POST") fresh) in
  List.map (fun v => (status_lines (run v), upstream_calls (run v)))
    [blit "9223372036854775808"; [x1c; x32]; blit "12a"]
  = [([500%Z], []); ([500%Z], []); ([500%Z], [])]
  /\ List.map (fun v => (status_lines (run v),
                         List.length (upstream_calls (run v))))
       [blit "2"; [xa0; x32]]
     = [([200%Z], 1%nat); ([200%Z], 1%nat)].
Proof. vm_compute. split; reflexivity. Qed.

Example split_samples :
  split 63 (lit "/capi/x?a=1?b=2") = [lit "/capi/x"; lit "a=1"; lit "b=2"]
  /\ split 63 (lit "/capi/x?") = [lit "/capi/x"; []]
  /\ split 63 (lit "/capi/x") = [lit "/capi/x"]
  /\ split 63 [] = [[]].
Proof. vm_compute. repeat split. Qed.

Example json_escape_samples :
  json_string (lit "a\b" ++ [34; 10; 233; 128512; 127; 31])
  = 34 :: lit "a\\b\" ++ 34 :: lit "\n\u00e9\ud83d\ude00\u007f\u001f" ++ [34].
Proof. vm_compute. reflexivity. Qed.

Example str_of_Z_samples :
  List.map str_of_Z [0%Z; 1700000000000%Z; (-5)%Z]
  = [lit "0"; lit "1700000000000"; lit "-5"].
Proof. vm_compute. reflexivity. Qed.

(** ** Bytes *)


Lemma byte_of_to_N (b : byte) : byte_of_N (Byte.to_N b) = b.
Proof. unfold byte_of_N. now rewrite Byte.of_to_N. Qed.

Lemma to_N_lt_256 (b : byte) : Byte.to_N b < 256.
Proof. pose proof (Byte.to_N_bounded b). lia. Qed.

Lemma to_of_N (n : N) : n < 256 -> Byte.to_N (byte_of_N n) = n.
Proof.
  intros Hn. unfold byte_of_N.
  destruct (Byte.of_N n) eqn:E.
  - now apply Byte.to_of_N.
  - apply Byte.of_N_None_iff in E. lia.
Qed.

(** ** The UTF-8 codec *)

Ltac cmp_to_prop :=
  repeat match goal with
         | H : (_ <? _) = true |- _ => apply N.ltb_lt in H
         | H : (_ <? _) = false |- _ => apply N.ltb_ge in H
         | H : (_ <=? _) = true |- _ => apply N.leb_le in H
         | H : (_ <=? _) = false |- _ => apply N.leb_gt in H
         | H : (_ =? _) = true |- _ => apply N.eqb_eq in H
         | H : (_ =? _) = false |- _ => apply N.eqb_neq in H
         | H : (_ && _) = true |- _ => apply andb_true_iff in H; destruct H
         end.

Lemma between_spec lo hi n : between lo hi n = true <-> lo <= n <= hi.
Proof.
  unfold between. rewrite andb_true_iff, !N.leb_le. tauto.
Qed.

Lemma classify_Single n : classify n = Single -> n < 128.
Proof.
  unfold classify.
  repeat match goal with
         | |- context [if ?c then _ else _] => destruct c eqn:?
         end; intros H; inversion H; cmp_to_prop; lia.
Qed.

Lemma classify_Lead2 n : classify n = Lead2 -> 194 <= n < 224.
Proof.
  unfold classify.
  repeat match goal with
         | |- context [if ?c then _ else _] => destruct c eqn:?
         end; intros H; inversion H; cmp_to_prop; lia.
Qed.

Lemma classify_Lead3 n lo hi :
  classify n = Lead3 lo hi ->
  (n = 224 /\ lo = 160 /\ hi = 191)
  \/ (n = 237 /\ lo = 128 /\ hi = 159)
  \/ (225 <= n < 240 /\ n <> 237 /\ lo = 128 /\ hi = 191).
Proof.
  unfold classify.
  repeat match goal with
         | |- context [if ?c then _ else _] => destruct c eqn:?
         end; intros H; inversion H; subst; cmp_to_prop; lia.
Qed.

Lemma classify_Lead4 n lo hi :
  classify n = Lead4 lo hi ->
  (n = 240 /\ lo = 144 /\ hi = 191)
  \/ (n = 244 /\ lo = 128 /\ hi = 143)
  \/ (241 <= n < 244 /\ lo = 128 /\ hi = 191).
Proof.
  unfold classify.
  repeat match goal with
         | |- context [if ?c then _ else _] => destruct c eqn:?
         end; intros H; inversion H; subst; cmp_to_prop; lia.
Qed.

Lemma encode_cp2 n0 n1 :
  194 <= n0 < 224 -> 128 <= n1 <= 191 ->
  utf8_encode_cp ((n0 - 192) * 64 + (n1 - 128))
  = Some [byte_of_N n0; byte_of_N n1].
Proof.
  intros H0 H1. unfold utf8_encode_cp.
  set (cp := (n0 - 192) * 64 + (n1 - 128)).
  assert (E1 : (cp <? 128) = false) by (apply N.ltb_ge; lia).
  assert (E2 : (cp <? 2048) = true) by (apply N.ltb_lt; lia).
  rewrite E1, E2.
  assert (D0 : cp / 64 = n0 - 192).
  { symmetry. apply (N.div_unique cp 64 _ (n1 - 128)); lia. }
  assert (D1 : cp mod 64 = n1 - 128).
  { symmetry. apply (N.mod_unique cp 64 (cp / 64)); lia. }
  rewrite D0, D1. repeat f_equal; lia.
Qed.

Lemma encode_cp3 n0 n1 n2 lo hi :
  classify n0 = Lead3 lo hi -> lo <= n1 <= hi -> 128 <= n2 <= 191 ->
  utf8_encode_cp ((n0 - 224) * 4096 + (n1 - 128) * 64 + (n2 - 128))
  = Some [byte_of_N n0; byte_of_N n1; byte_of_N n2].
Proof.
  intros Hc H1 H2. apply classify_Lead3 in Hc. unfold utf8_encode_cp.
  set (cp := (n0 - 224) * 4096 + (n1 - 128) * 64 + (n2 - 128)).
  assert (E1 : (cp <? 128) = false) by (apply N.ltb_ge; lia).
  assert (E2 : (cp <? 2048) = false) by (apply N.ltb_ge; lia).
  assert (E3 : (cp <? 65536) = true) by (apply N.ltb_lt; lia).
  assert (E4 : between 55296 57343 cp = false).
  { destruct (between 55296 57343 cp) eqn:E; [|reflexivity].
    apply between_spec in E. lia. }
  rewrite E1, E2, E3, E4.
  assert (D0 : cp / 4096 = n0 - 224).
  { symmetry. apply (N.div_unique cp 4096 _
      ((n1 - 128) * 64 + (n2 - 128))); lia. }
  assert (D1 : cp / 64 = (n0 - 224) * 64 + (n1 - 128)).
  { symmetry. apply (N.div_unique cp 64 _ (n2 - 128)); lia. }
  assert (D2 : cp mod 64 = n2 - 128).
  { symmetry. apply (N.mod_unique cp 64 (cp / 64)); lia. }
  rewrite D0, D1, D2.
  replace (((n0 - 224) * 64 + (n1 - 128)) mod 64) with (n1 - 128)
    by (apply (N.mod_unique _ 64 (n0 - 224)); lia).
  repeat f_equal; lia.
Qed.

Lemma encode_cp4 n0 n1 n2 n3 lo hi :
  classify n0 = Lead4 lo hi -> lo <= n1 <= hi ->
  128 <= n2 <= 191 -> 128 <= n3 <= 191 ->
  utf8_encode_cp ((n0 - 240) * 262144 + (n1 - 128) * 4096
                  + (n2 - 128) * 64 + (n3 - 128))
  = Some [byte_of_N n0; byte_of_N n1; byte_of_N n2; byte_of_N n3].
Proof.
  intros Hc H1 H2 H3. apply classify_Lead4 in Hc. unfold utf8_encode_cp.
  set (cp := (n0 - 240) * 262144 + (n1 - 128) * 4096
             + (n2 - 128) * 64 + (n3 - 128)).
  assert (E1 : (cp <? 128) = false) by (apply N.ltb_ge; lia).
  assert (E2 : (cp <? 2048) = false) by (apply N.ltb_ge; lia).
  assert (E3 : (cp <? 65536) = false) by (apply N.ltb_ge; lia).
  assert (E4 : (cp <? 1114112) = true) by (apply N.ltb_lt; lia).
  rewrite E1, E2, E3, E4.
  assert (D0 : cp / 262144 = n0 - 240).
  { symmetry. apply (N.div_unique cp 262144 _
      ((n1 - 128) * 4096 + (n2 - 128) * 64 + (n3 - 128))); lia. }
  assert (D1 : cp / 4096 = (n0 - 240) * 64 + (n1 - 128)).
  { symmetry. apply (N.div_unique cp 4096 _
      ((n2 - 128) * 64 + (n3 - 128))); lia. }
  assert (D2 : cp / 64 = (n0 - 240) * 4096 + (n1 - 128) * 64 + (n2 - 128)).
  { symmetry. apply (N.div_unique cp 64 _ (n3 - 128)); lia. }
  assert (D3 : cp mod 64 = n3 - 128).
  { symmetry. apply (N.mod_unique cp 64 (cp / 64)); lia. }
  rewrite D0, D1, D2, D3.
  replace (((n0 - 240) * 64 + (n1 - 128)) mod 64) with (n1 - 128)
    by (apply (N.mod_unique _ 64 (n0 - 240)); lia).
  replace (((n0 - 240) * 4096 + (n1 - 128) * 64 + (n2 - 128)) mod 64)
    with (n2 - 128)
    by (apply (N.mod_unique _ 64 ((n0 - 240) * 64 + (n1 - 128))); lia).
  repeat f_equal; lia.
Qed.

Lemma encode_cp1 n : n < 128 -> utf8_encode_cp n = Some [byte_of_N n].
Proof.
  intros H. unfold utf8_encode_cp.
  apply N.ltb_lt in H. now rewrite H.
Qed.

Lemma utf8_decode_decoded_len n :
  forall e b s, (List.length b <= n)%nat ->
                utf8_decode e b = Some s -> decoded e b s.
Proof.
  induction n as [|n IH]; intros e b s Hlen H.
  { destruct b; [|simpl in Hlen; lia]. inversion H. constructor. }
  assert (Herr : forall bad rest k,
             b = bad ++ rest -> bad <> [] ->
             (forall s', k = Some s' -> decoded e rest s') ->
             on_error e k = Some s -> decoded e b s).
  { intros bad rest k -> Hne Hk Ho. destruct e; [discriminate|].
    simpl in Ho. destruct k as [s'|]; [|discriminate].
    inversion Ho; subst. apply dec_bad; auto. }
  destruct b as [|b0 r0]; [inversion H; constructor|].
  simpl in Hlen. cbn [utf8_decode] in H.
  destruct (classify (Byte.to_N b0)) eqn:Hc.
  - (* one byte *)
    destruct (utf8_decode e r0) as [s0|] eqn:H0; [|discriminate].
    inversion H; subst.
    apply (dec_seq e _ [b0]).
    + rewrite encode_cp1 by now apply classify_Single.
      now rewrite byte_of_to_N.
    + apply IH; [cbn [List.length] in *; lia|assumption].
  - (* two bytes *)
    destruct r0 as [|b1 r1].
    { apply (Herr [b0] [] (Some [])); auto; [discriminate|].
      intros s' E; inversion E; constructor. }
    destruct (between 128 191 (Byte.to_N b1)) eqn:B1.
    + destruct (utf8_decode e r1) as [s1|] eqn:H1; [|discriminate].
      inversion H; subst. apply (dec_seq e _ [b0; b1]).
      * rewrite encode_cp2.
        -- now rewrite !byte_of_to_N.
        -- now apply classify_Lead2.
        -- now apply between_spec.
      * apply IH; [cbn [List.length] in *; lia|assumption].
    + apply (Herr [b0] (b1 :: r1) (utf8_decode e (b1 :: r1))); auto.
      * discriminate.
      * intros s' E. apply IH; [cbn [List.length] in *; lia|assumption].
  - (* three bytes *)
    destruct r0 as [|b1 r1].
    { apply (Herr [b0] [] (Some [])); auto; [discriminate|].
      intros s' E; inversion E; constructor. }
    destruct (between lo hi (Byte.to_N b1)) eqn:B1.
    2:{ apply (Herr [b0] (b1 :: r1) (utf8_decode e (b1 :: r1))); auto.
        - discriminate.
        - intros s' E. apply IH; [cbn [List.length] in *; lia|assumption]. }
    destruct r1 as [|b2 r2].
    { apply (Herr [b0; b1] [] (Some [])); auto; [discriminate|].
      intros s' E; inversion E; constructor. }
    destruct (between 128 191 (Byte.to_N b2)) eqn:B2.
    + destruct (utf8_decode e r2) as [s2|] eqn:H2; [|discriminate].
      inversion H; subst. apply (dec_seq e _ [b0; b1; b2]).
      * rewrite (encode_cp3 _ _ _ lo hi); auto.
        -- now rewrite !byte_of_to_N.
        -- now apply between_spec.
        -- now apply between_spec.
      * apply IH; [cbn [List.length] in *; lia|assumption].
    + apply (Herr [b0; b1] (b2 :: r2) (utf8_decode e (b2 :: r2))); auto.
      * discriminate.
      * intros s' E. apply IH; [cbn [List.length] in *; lia|assumption].
  - (* four bytes *)
    destruct r0 as [|b1 r1].
    { apply (Herr [b0] [] (Some [])); auto; [discriminate|].
      intros s' E; inversion E; constructor. }
    destruct (between lo hi (Byte.to_N b1)) eqn:B1.
    2:{ apply (Herr [b0] (b1 :: r1) (utf8_decode e (b1 :: r1))); auto.
        - discriminate.
        - intros s' E. apply IH; [cbn [List.length] in *; lia|assumption]. }
    destruct r1 as [|b2 r2].
    { apply (Herr [b0; b1] [] (Some [])); auto; [discriminate|].
      intros s' E; inversion E; constructor. }
    destruct (between 128 191 (Byte.to_N b2)) eqn:B2.
    2:{ apply (Herr [b0; b1] (b2 :: r2) (utf8_decode e (b2 :: r2))); auto.
        - discriminate.
        - intros s' E. apply IH; [cbn [List.length] in *; lia|assumption]. }
    destruct r2 as [|b3 r3].
    { apply (Herr [b0; b1; b2] [] (Some [])); auto; [discriminate|].
      intros s' E; inversion E; constructor. }
    destruct (between 128 191 (Byte.to_N b3)) eqn:B3.
    + destruct (utf8_decode e r3) as [s3|] eqn:H3; [|discriminate].
      inversion H; subst. apply (dec_seq e _ [b0; b1; b2; b3]).
      * rewrite (encode_cp4 _ _ _ _ lo hi); auto.
        -- now rewrite !byte_of_to_N.
        -- now apply between_spec.
        -- now apply between_spec.
        -- now apply between_spec.
      * apply IH; [cbn [List.length] in *; lia|assumption].
    + apply (Herr [b0; b1; b2] (b3 :: r3) (utf8_decode e (b3 :: r3))); auto.
      * discriminate.
      * intros s' E. apply IH; [cbn [List.length] in *; lia|assumption].
  - (* no lead byte *)
    apply (Herr [b0] r0 (utf8_decode e r0)); auto.
    + discriminate.
    + intros s' E. apply IH; [cbn [List.length] in *; lia|assumption].
Qed.

Lemma utf8_decode_decoded e b s : utf8_decode e b = Some s -> decoded e b s.
Proof. now apply (utf8_decode_decoded_len (List.length b)). Qed.

Lemma utf8_encode_app a b a' b' :
  utf8_encode a = Some a' -> utf8_encode b = Some b' ->
  utf8_encode (a ++ b) = Some (a' ++ b').
Proof.
  revert a'. induction a as [|c a IH]; intros a' Ha Hb.
  - inversion Ha. exact Hb.
  - simpl in *. destruct (utf8_encode_cp c) as [bc|]; [|discriminate].
    destruct (utf8_encode a) as [ba|]; [|discriminate].
    inversion Ha; subst. rewrite (IH ba eq_refl Hb).
    now rewrite app_assoc.
Qed.

(** Strict decoding is injective: encoding gives the bytes back. *)
Lemma utf8_roundtrip b s :
  utf8_decode Strict b = Some s -> utf8_encode s = Some b.
Proof.
  intros H. apply utf8_decode_decoded in H.
  remember Strict as e eqn:He.
  induction H as [e|e cp enc rest s Hcp Hd IH|bad rest s Hne Hd IH].
  - reflexivity.
  - simpl. rewrite Hcp, (IH He). reflexivity.
  - discriminate.
Qed.

(** Whatever a decoder returns can be encoded again. *)
Lemma utf8_decoded_encodes e b s :
  utf8_decode e b = Some s -> exists b', utf8_encode s = Some b'.
Proof.
  intros H. apply utf8_decode_decoded in H.
  induction H as [e|e cp enc rest s Hcp Hd [b' IH]|bad rest s Hne Hd [b' IH]].
  - now exists [].
  - exists (enc ++ b'). simpl. now rewrite Hcp, IH.
  - eexists. simpl. rewrite IH. reflexivity.
Qed.

Ltac decode_cases :=
  repeat match goal with
         | |- context [match classify ?x with _ => _ end] =>
             destruct (classify x)
         | |- context [if between ?a ?b ?c then _ else _] =>
             destruct (between a b c)
         | |- context [match ?r with [] => _ | _ :: _ => _ end] =>
             is_var r; destruct r
         end.

(** [errors='replace'] never raises, and agrees with strict decoding
    wherever that succeeds. *)
Lemma utf8_decode_modes_len n :
  forall b, (List.length b <= n)%nat ->
    (exists s, utf8_decode Replace b = Some s)
    /\ (forall s, utf8_decode Strict b = Some s ->
                  utf8_decode Replace b = Some s).
Proof.
  induction n as [|n IH]; intros b Hlen.
  { destruct b; [|simpl in Hlen; lia]. split; [now exists []|auto]. }
  destruct b as [|b0 r0]; [split; [now exists []|auto]|].
  cbn [utf8_decode]. decode_cases;
    (split;
     [ cbn [on_error];
       try match goal with
           | |- context [utf8_decode Replace ?r] =>
               let E := fresh in
               destruct (proj1 (IH r ltac:(cbn [List.length] in *; lia)))
                 as [? E];
               rewrite E
           end;
       cbn [option_map]; eexists; reflexivity
     | intros s H; cbn [on_error] in H; try discriminate;
       match type of H with
       | context [utf8_decode Strict ?r] =>
           let E := fresh in
           destruct (utf8_decode Strict r) eqn:E; [|discriminate];
           rewrite (proj2 (IH r ltac:(cbn [List.length] in *; lia)) _ E);
           exact H
       end ]).
Qed.

Lemma utf8_replace_total b : exists s, utf8_decode Replace b = Some s.
Proof. now apply (utf8_decode_modes_len (List.length b)). Qed.


Lemma utf8_decode_nil e : utf8_decode e [] = Some [].
Proof. reflexivity. Qed.

Lemma utf8_encode_nil : utf8_encode [] = Some [].
Proof. reflexivity. Qed.

(** ASCII text is its own encoding. *)
Lemma utf8_encode_ascii s :
  is_ascii s ->
  utf8_encode s = Some (List.map byte_of_N s).
Proof.
  induction 1 as [|c s Hc Hs IH]; [reflexivity|].
  simpl. now rewrite (encode_cp1 c Hc), IH.
Qed.

Lemma utf8_decode_ascii e b :
  Forall (fun x => Byte.to_N x < 128) b ->
  utf8_decode e b = Some (latin1_decode b).
Proof.
  induction 1 as [|x b Hx Hb IH]; [reflexivity|].
  cbn [utf8_decode]. unfold classify.
  apply N.ltb_lt in Hx. rewrite Hx, IH. reflexivity.
Qed.

(** Latin-1 text, which is all a request line or a header can hold, always
    encodes. *)
Lemma utf8_encode_latin1 b : exists b', utf8_encode (latin1_decode b) = Some b'.
Proof.
  induction b as [|x b [b' IH]]; [now exists []|].
  simpl. rewrite IH. unfold utf8_encode_cp.
  pose proof (to_N_lt_256 x) as Hx.
  destruct (Byte.to_N x <? 128); [eexists; reflexivity|].
  assert (E : (Byte.to_N x <? 2048) = true) by (apply N.ltb_lt; lia).
  rewrite E. eexists; reflexivity.
Qed.

Lemma latin1_decode_app a b :
  latin1_decode (a ++ b) = latin1_decode a ++ latin1_decode b.
Proof. apply map_app. Qed.

(** ** base64 output is ASCII *)

Lemma b64_char_ascii i : Byte.to_N (b64_char i) < 128.
Proof.
  unfold b64_char.
  assert (A : Forall (fun x => Byte.to_N x < 128) b64_alphabet).
  { repeat constructor. }
  destruct (nth_in_or_default (N.to_nat i) b64_alphabet x3d) as [Hin| ->].
  - rewrite Forall_forall in A. now apply A.
  - reflexivity.
Qed.

Lemma b64encode_ascii_len n :
  forall b, (List.length b <= n)%nat ->
            Forall (fun x => Byte.to_N x < 128) (b64encode b).
Proof.
  induction n as [|n IH]; intros b Hlen.
  { destruct b; [constructor|simpl in Hlen; lia]. }
  destruct b as [|b0 [|b1 [|b2 rest]]]; cbn [b64encode].
  - constructor.
  - repeat (constructor; [apply b64_char_ascii || reflexivity|]). constructor.
  - repeat (constructor; [apply b64_char_ascii || reflexivity|]). constructor.
  - repeat (constructor; [apply b64_char_ascii|]).
    apply IH. cbn [List.length] in Hlen. lia.
Qed.

Lemma b64encode_decodes e b :
  utf8_decode e (b64encode b) = Some (latin1_decode (b64encode b)).
Proof.
  apply utf8_decode_ascii.
  now apply (b64encode_ascii_len (List.length b)).
Qed.

(** ** json.dumps output is ASCII *)

Lemma ascii_app a b : is_ascii a -> is_ascii b -> is_ascii (a ++ b).
Proof. intros. now apply Forall_app. Qed.

Lemma hexdigit_ascii n : n < 16 -> hexdigit n < 128.
Proof. intros H. unfold hexdigit. destruct (n <? 10); lia. Qed.

Lemma u_escape_ascii n : n < 65536 -> is_ascii (u_escape n).
Proof.
  intros H. unfold u_escape, is_ascii.
  assert (n / 4096 < 16) by (apply N.Div0.div_lt_upper_bound; lia).
  repeat constructor; apply hexdigit_ascii;
    try assumption; now apply N.mod_lt.
Qed.

Lemma json_escape_ascii c : is_ascii (json_escape c).
Proof.
  unfold json_escape.
  repeat match goal with
         | |- context [if ?b then _ else _] => destruct b eqn:?
         end; try (repeat constructor; fail).
  - apply between_spec in Heqb6. repeat constructor. lia.
  - apply u_escape_ascii. now apply N.ltb_lt.
  - apply ascii_app; apply u_escape_ascii.
    + pose proof (N.mod_lt ((c - 65536) / 1024) 1024). lia.
    + pose proof (N.mod_lt (c - 65536) 1024). lia.
Qed.

Lemma json_string_ascii s : is_ascii (json_string s).
Proof.
  unfold json_string. constructor; [reflexivity|].
  apply ascii_app; [|repeat constructor].
  induction s as [|c s IH]; [constructor|].
  simpl. apply ascii_app; [apply json_escape_ascii|exact IH].
Qed.

Lemma join_ascii sep parts :
  is_ascii sep -> Forall is_ascii parts -> is_ascii (join sep parts).
Proof.
  intros Hsep. induction 1 as [|p rest Hp Hrest IH]; [constructor|].
  destruct rest as [|q rest]; [exact Hp|].
  change (is_ascii (p ++ sep ++ join sep (q :: rest))).
  auto using ascii_app.
Qed.

Lemma json_dumps_ascii d : is_ascii (json_dumps d).
Proof.
  unfold json_dumps.
  apply ascii_app; [repeat constructor|].
  apply ascii_app; [|repeat constructor].
  apply join_ascii; [repeat constructor|].
  induction d as [|[k v] d IH]; constructor; [|exact IH].
  cbn [fst snd]. apply ascii_app; [apply json_string_ascii|].
  apply ascii_app; [repeat constructor|].
  destruct v; [repeat constructor|apply json_string_ascii].
Qed.

Lemma encode_json_dumps d :
  encode (json_dumps d) = Returns (List.map byte_of_N (json_dumps d)).
Proof.
  unfold encode. now rewrite (utf8_encode_ascii _ (json_dumps_ascii d)).
Qed.

(** ** str(int) is ASCII *)

Lemma string_of_uint_ascii d :
  is_ascii (lit (DecimalString.NilEmpty.string_of_uint d)).
Proof.
  induction d; simpl; try constructor; try reflexivity; assumption.
Qed.

Lemma nilzero_uint_ascii d :
  is_ascii (lit (DecimalString.NilZero.string_of_uint d)).
Proof.
  destruct d; [repeat constructor|exact (string_of_uint_ascii _)..].
Qed.

Lemma str_of_Z_ascii z : is_ascii (str_of_Z z).
Proof.
  unfold str_of_Z. destruct (Z.to_int z) as [d|d].
  - apply nilzero_uint_ascii.
  - constructor; [reflexivity|apply nilzero_uint_ascii].
Qed.

(** ** str.split *)

Lemma split_not_nil sep s : split sep s <> [].
Proof.
  destruct s as [|c s]; simpl; [discriminate|].
  destruct (c =? sep); [discriminate|].
  destruct (split sep s); discriminate.
Qed.

Lemma split_without sep s : ~ In sep s -> split sep s = [s].
Proof.
  induction s as [|c s IH]; intros H; [reflexivity|].
  simpl. destruct (N.eqb_spec c sep) as [->|_].
  - exfalso. apply H. now left.
  - rewrite IH; [reflexivity|]. intros Hin. apply H. now right.
Qed.

Lemma split_at_first sep p q :
  ~ In sep p -> split sep (p ++ sep :: q) = p :: split sep q.
Proof.
  induction p as [|c p IH]; intros H.
  - simpl. now rewrite N.eqb_refl.
  - simpl. destruct (N.eqb_spec c sep) as [->|_].
    + exfalso. apply H. now left.
    + rewrite IH; [reflexivity|]. intros Hin. apply H. now right.
Qed.

Lemma split_all (P : N -> Prop) sep s :
  Forall P s -> Forall (Forall P) (split sep s).
Proof.
  intros H. induction H as [|c s' Hc Hs IH]; [repeat constructor|].
  cbn [split]. destruct (c =? sep); [constructor; [constructor|exact IH]|].
  destruct (split sep s') as [|part parts]; [repeat constructor; exact Hc|].
  inversion IH; subst. constructor; [constructor|]; assumption.
Qed.

Lemma nth_all {A} (P : A -> Prop) (l : list A) i d :
  Forall P l -> P d -> P (nth i l d).
Proof.
  intros Hl Hd. destruct (nth_in_or_default i l d) as [Hin| ->]; [|exact Hd].
  rewrite Forall_forall in Hl. now apply Hl.
Qed.


(** ** The signer *)

Lemma generate_signature_returns secret timestamp method path body key msg :
  utf8_encode secret = Some key ->
  utf8_encode (timestamp ++ upper method ++ path ++ body) = Some msg ->
  generate_signature secret timestamp method path body
  = Returns (latin1_decode (b64encode (hmac_sha256 key msg))).
Proof.
  intros Hk Hm. unfold generate_signature, encode, decode.
  rewrite Hk, Hm. cbn [obind]. now rewrite b64encode_decodes.
Qed.

(** ** The handler *)

Local Opaque generate_signature utf8_encode utf8_decode int_of_str split
  str_of_Z json_dumps.

Lemma end_headers_run h :
  end_headers h
  = (Returns tt,
     {| status_lines := status_lines h;
        sent_headers := sent_headers h ++ cors_headers;
        headers_ended := true;
        wfile := wfile h;
        upstream_calls := upstream_calls h |}).
Proof.
  unfold end_headers, bind, send_header, super_end_headers. cbn.
  rewrite <- !app_assoc. reflexivity.
Qed.

Lemma bind_lift {A B} (o : outcome A) (f : A -> M B) h :
  bind (lift o) f h
  = match o with
    | Returns a => f a h
    | Raises e => (Raises e, h)
    end.
Proof. unfold bind, lift. now destruct o. Qed.

Lemma rate_limit_loop (resp : UpstreamResponse) h :
  for_each [lit "X-RateLimit-Limit"; lit "X-RateLimit-Remaining";
            lit "X-RateLimit-Reset"]
    (fun header =>
       match getheader resp header with
       | Some value => if truthy value then send_header header value
                       else ret tt
       | None => ret tt
       end) h
  = (Returns tt,
     {| status_lines := status_lines h;
        sent_headers := sent_headers h ++ rate_limit_headers resp;
        headers_ended := headers_ended h;
        wfile := wfile h;
        upstream_calls := upstream_calls h |}).
Proof.
  unfold rate_limit_headers. cbn [for_each List.flat_map].
  destruct h as [sl sh he wf uc]. unfold bind, send_header, ret.
  destruct (getheader resp (lit "X-RateLimit-Limit")) as [v1|];
    [destruct (truthy v1)|];
    (destruct (getheader resp (lit "X-RateLimit-Remaining")) as [v2|];
     [destruct (truthy v2)|]);
    (destruct (getheader resp (lit "X-RateLimit-Reset")) as [v3|];
     [destruct (truthy v3)|]);
    cbn; rewrite <- ?app_assoc, ?app_nil_r; reflexivity.
Qed.

(** What the handler does once the request is built. *)
Lemma relay_run rt req h :
  bind (call_urlopen rt req)
    (fun response =>
       bind (send_response rt (up_status response)) (fun _ =>
       bind (send_header (lit "Content-Type")
               match getheader response (lit "Content-Type") with
               | Some v => v
               | None => lit "application/json"
               end) (fun _ =>
       bind (for_each [lit "X-RateLimit-Limit"; lit "X-RateLimit-Remaining";
                       lit "X-RateLimit-Reset"]
               (fun header =>
                  match getheader response header with
                  | Some value =>
                      if truthy value then send_header header value
                      else ret tt
                  | None => ret tt
                  end)) (fun _ =>
       bind end_headers (fun _ => wfile_write (up_body response)))))) h
  = match urlopen rt req with
    | Raises e => (Raises e, called h req)
    | Returns resp =>
        (Returns tt,
         responded rt (called h req) (up_status resp)
           ((lit "Content-Type", content_type_of resp)
              :: rate_limit_headers resp)
           (up_body resp))
    end.
Proof.
  unfold bind at 1. unfold call_urlopen. fold (called h req).
  destruct (urlopen rt req) as [resp|e]; [|reflexivity].
  unfold bind at 1. unfold send_response, bind, send_header.
  rewrite rate_limit_loop, end_headers_run.
  unfold wfile_write, responded, content_type_of. cbn.
  rewrite <- !app_assoc. reflexivity.
Qed.

Lemma proxy_try_outbound rt self method h :
  proxy_try rt self method h
  = match outbound rt self method with
    | Raises e => (Raises e, h)
    | Returns req =>
        match urlopen rt req with
        | Raises e => (Raises e, called h req)
        | Returns resp =>
            (Returns tt,
             responded rt (called h req) (up_status resp)
               ((lit "Content-Type", content_type_of resp)
                  :: rate_limit_headers resp)
               (up_body resp))
        end
    end.
Proof.
  unfold proxy_try, outbound, read_body.
  fold (header_or_empty self (lit "ACCESS-KEY")).
  fold (header_or_empty self (lit "ACCESS-SIGN")).
  fold (header_or_empty self (lit "ACCESS-PASSPHRASE")).
  fold (authenticated self). fold (query_string self). fold (base_path self).
  fold (sign_path self method). fold (public_headers self).
  fold (content_length self).
  replace (match headers_get (headers self) (lit "Content-Length") with
           | Some v => lift (int v)
           | None => ret 0%Z
           end) with (lift (content_length self))
    by (unfold content_length;
        now destruct (headers_get (headers self) (lit "Content-Length"))).
  rewrite bind_lift.
  destruct (content_length self) as [n|e]; [|reflexivity]. cbn [obind].
  replace (if (0 <? n)%Z
           then lift (obind (rfile_read self n) (decode Strict))
           else ret [])
    with (lift (if (0 <? n)%Z then obind (rfile_read self n) (decode Strict)
                else Returns []))
    by now destruct (0 <? n)%Z.
  rewrite bind_lift.
  destruct (if (0 <? n)%Z then obind (rfile_read self n) (decode Strict)
            else Returns []) as [body|e]; [|reflexivity].
  cbn [obind]. fold (sign_body method body).
  match goal with
  | |- bind (if authenticated self then ?m1 else ?m2) _ _ = _ =>
      replace (if authenticated self then m1 else m2)
        with (lift (forward_headers rt self method body))
        by (unfold forward_headers; destruct (authenticated self);
            [destruct (generate_signature _ _ _ _ _)|]; reflexivity)
  end.
  rewrite bind_lift.
  destruct (forward_headers rt self method body) as [hs|e]; [|reflexivity].
  cbn [obind].
  match goal with
  | |- bind (if truthy body then ?m1 else ?m2) _ _ = _ =>
      replace (if truthy body then m1 else m2)
        with (lift (if truthy body
                    then obind (encode body) (fun b => Returns (Some b))
                    else Returns None))
        by (destruct (truthy body); [destruct (encode body)|]; reflexivity)
  end.
  rewrite bind_lift.
  destruct (if truthy body
            then obind (encode body) (fun b => Returns (Some b))
            else Returns None) as [data|e]; [|reflexivity].
  cbn [obind]. apply relay_run.
Qed.


Lemma respond_run rt h code body :
  (bind (send_response rt code) (fun _ =>
   bind (send_header (lit "Content-Type") (lit "application/json")) (fun _ =>
   bind end_headers (fun _ => wfile_write body)))) h
  = (Returns tt,
     responded rt h code [(lit "Content-Type", lit "application/json")] body).
Proof.
  unfold bind at 1. unfold send_response, bind, send_header.
  rewrite end_headers_run. unfold wfile_write, responded. cbn.
  rewrite <- !app_assoc. reflexivity.
Qed.

Lemma respond_json_run rt h code d :
  (bind (send_response rt code) (fun _ =>
   bind (send_header (lit "Content-Type") (lit "application/json")) (fun _ =>
   bind end_headers (fun _ =>
   bind (lift (encode (json_dumps d))) (fun out => wfile_write out))))) h
  = (Returns tt,
     responded rt h code [(lit "Content-Type", lit "application/json")]
       (dumps_bytes d)).
Proof.
  rewrite <- respond_run. rewrite encode_json_dumps.
  unfold bind, lift.
  destruct (send_response rt code h) as [[[]|e] h1]; [|reflexivity].
  destruct (send_header _ _ h1) as [[[]|e] h2]; [|reflexivity].
  destruct (end_headers h2) as [[[]|e] h3]; reflexivity.
Qed.

(** The [except] clauses never raise: every exception ends in a complete
    response. *)
Lemma proxy_except_run rt e h :
  proxy_except rt e h = (Returns tt, after_except rt h e).
Proof.
  destruct e as [code body|reason|arg|input|input|n|text];
    [|apply respond_json_run..].
  unfold proxy_except, after_except, reencode, decode.
  destruct (utf8_replace_total body) as [s Hs].
  destruct (utf8_decoded_encodes _ _ _ Hs) as [out Hout].
  rewrite bind_lift, Hs. rewrite <- respond_run.
  unfold encode. rewrite Hout. unfold bind, lift.
  destruct (send_response rt code h) as [[[]|e] h1]; [|reflexivity].
  destruct (send_header _ _ h1) as [[[]|e] h2]; [|reflexivity].
  destruct (end_headers h2) as [[[]|e] h3]; reflexivity.
Qed.

(** [_proxy_request] always returns, with exactly the state
    [after_proxy_request] describes. *)
Lemma proxy_request_run rt self method h :
  _proxy_request rt self method h
  = (Returns tt, after_proxy_request rt self method h).
Proof.
  unfold _proxy_request, try_except, after_proxy_request.
  rewrite proxy_try_outbound.
  destruct (outbound rt self method) as [req|e];
    [destruct (urlopen rt req) as [resp|e]|];
    try apply proxy_except_run; reflexivity.
Qed.

(** ** What can be encoded *)

Lemma encodable_app a b : encodable a -> encodable b -> encodable (a ++ b).
Proof.
  intros [a' Ha] [b' Hb]. exists (a' ++ b'). now apply utf8_encode_app.
Qed.

Lemma encodable_ascii s : is_ascii s -> encodable s.
Proof. intros H. eexists. now apply utf8_encode_ascii. Qed.

Lemma encodable_latin1 s : is_latin1 s -> encodable s.
Proof.
  induction 1 as [|c s Hc Hs [b IH]]; [now exists []|].
  unfold encodable. cbn [utf8_encode]. rewrite IH. unfold utf8_encode_cp.
  destruct (c <? 128); [eexists; reflexivity|].
  assert (E : (c <? 2048) = true) by (apply N.ltb_lt; lia).
  rewrite E. eexists; reflexivity.
Qed.

(** ** After a response *)


Lemma after_except_calls rt h e :
  upstream_calls (after_except rt h e) = upstream_calls h.
Proof. now destruct e. Qed.



(** A call recorded by [_proxy_request] is the one [outbound] built, and
    it is the only one. *)
Lemma after_proxy_request_calls rt self method :
  upstream_calls (after_proxy_request rt self method fresh)
  = match outbound rt self method with
    | Returns req => [req]
    | Raises _ => []
    end.
Proof.
  unfold after_proxy_request.
  destruct (outbound rt self method) as [req|e];
    [destruct (urlopen rt req) as [resp|e]|];
    rewrite ?after_except_calls; reflexivity.
Qed.

Lemma recorded_call rt self method req :
  In req (upstream_calls (snd (_proxy_request rt self method fresh))) ->
  outbound rt self method = Returns req.
Proof.
  rewrite proxy_request_run. cbn [snd].
  rewrite after_proxy_request_calls.
  destruct (outbound rt self method) as [req'|e]; cbn [In].
  - intros [->|[]]. reflexivity.
  - intros [].
Qed.

(** ** Credentials *)

Lemma missing_iff self name : missing self name <-> header_or_empty self name = [].
Proof.
  unfold missing, header_or_empty.
  destruct (headers_get (headers self) name) as [v|].
  - split; [intros [H|H]; congruence|intros ->; now right].
  - split; [reflexivity|now left].
Qed.

Lemma truthy_false s : truthy s = false <-> s = [].
Proof. destruct s; split; (reflexivity || discriminate). Qed.

Lemma authenticated_false self :
  authenticated self = false
  <-> missing self (lit "ACCESS-KEY") \/ missing self (lit "ACCESS-SIGN")
      \/ missing self (lit "ACCESS-PASSPHRASE").
Proof.
  unfold authenticated. rewrite !missing_iff, !andb_false_iff, !truthy_false.
  tauto.
Qed.

(** ** Reading the body *)

Lemma body_bytes_nonpositive self n : (n <= 0)%Z -> body_bytes self n = [].
Proof.
  intros H. unfold body_bytes. apply Z.ltb_ge in H. now rewrite H.
Qed.

Lemma body_received_maxsize self n : body_received self n -> (n <= maxsize)%Z.
Proof. unfold body_received. lia. Qed.

(** A read of an index-sized number of bytes returns [body_bytes]. *)
Lemma rfile_read_body_bytes self n :
  (0 < n <= maxsize)%Z -> rfile_read self n = Returns (body_bytes self n).
Proof.
  intros [Hpos Hmax]. unfold rfile_read, body_bytes.
  apply Z.ltb_lt in Hpos. apply Z.ltb_ge in Hmax. now rewrite Hpos, Hmax.
Qed.

(** The body is read exactly when the Content-Length is an integer of at
    most 4300 digits, no larger than [sys.maxsize], and the bytes read are
    UTF-8. *)
Lemma read_body_inv self B :
  read_body self = Returns B ->
  exists n, content_length self = Returns n
            /\ (n <= maxsize)%Z
            /\ utf8_decode Strict (body_bytes self n) = Some B.
Proof.
  unfold read_body.
  destruct (content_length self) as [n|e]; [|discriminate]. cbn [obind].
  intros H. exists n. split; [reflexivity|].
  destruct (0 <? n)%Z eqn:Hpos.
  - apply Z.ltb_lt in Hpos. unfold rfile_read in H.
    destruct (maxsize <? n)%Z eqn:Hmax; [discriminate|].
    apply Z.ltb_ge in Hmax. split; [exact Hmax|].
    cbn [obind] in H. unfold decode in H. unfold body_bytes.
    apply Z.ltb_lt in Hpos. rewrite Hpos.
    destruct (utf8_decode Strict (firstn (Z.to_nat n) (rfile self)));
      congruence.
  - apply Z.ltb_ge in Hpos. split; [unfold maxsize; lia|].
    rewrite (body_bytes_nonpositive self n Hpos).
    inversion H. apply utf8_decode_nil.
Qed.

Lemma read_body_decoded self n B :
  content_length self = Returns n ->
  (n <= maxsize)%Z ->
  utf8_decode Strict (body_bytes self n) = Some B ->
  read_body self = Returns B.
Proof.
  intros Hn Hmax HB. unfold read_body. rewrite Hn. cbn [obind].
  destruct (0 <? n)%Z eqn:Hpos.
  - apply Z.ltb_lt in Hpos.
    rewrite (rfile_read_body_bytes self n (conj Hpos Hmax)). cbn [obind].
    unfold decode. now rewrite HB.
  - apply Z.ltb_ge in Hpos.
    rewrite (body_bytes_nonpositive self n Hpos), utf8_decode_nil in HB.
    now inversion HB.
Qed.

(** A body that was decoded can be encoded for the upstream. *)
Lemma read_body_encodes self body :
  read_body self = Returns body -> exists b, encode body = Returns b.
Proof.
  intros H. destruct (read_body_inv self body H) as (n & _ & _ & Hs).
  unfold encode. rewrite (utf8_roundtrip _ _ Hs). eauto.
Qed.

(** ** What the request line and the headers can hold *)

Lemma latin1_decode_is_latin1 b : is_latin1 (latin1_decode b).
Proof.
  induction b as [|x b IH]; constructor; [apply to_N_lt_256|exact IH].
Qed.

Lemma base_path_latin1 self : is_latin1 (base_path self).
Proof.
  unfold base_path. apply (nth_all is_latin1); [|constructor].
  apply split_all, latin1_decode_is_latin1.
Qed.

Lemma query_string_latin1 self : is_latin1 (query_string self).
Proof.
  unfold query_string.
  destruct (1 <? List.length (split 63 (path self)))%nat; [|constructor].
  apply (nth_all is_latin1); [|constructor].
  apply split_all, latin1_decode_is_latin1.
Qed.

Lemma sign_path_latin1 self method : is_latin1 (sign_path self method).
Proof.
  unfold sign_path.
  destruct (str_eqb (upper method) (lit "GET") && truthy (query_string self));
    [|apply base_path_latin1].
  apply Forall_app. split; [apply base_path_latin1|].
  constructor; [reflexivity|apply query_string_latin1].
Qed.

Lemma header_or_empty_latin1 self name : is_latin1 (header_or_empty self name).
Proof.
  unfold header_or_empty, headers_get, get_all, headers, decode_headers.
  induction (raw_headers self) as [|[k v] hs IH]; [constructor|].
  cbn [List.map List.filter fst snd].
  destruct (str_eqb (lower (latin1_decode k)) (lower name)); [|exact IH].
  apply latin1_decode_is_latin1.
Qed.

(** ** Base path and query string *)

Lemma base_path_before_query self P rest :
  ~ In 63 P ->
  path self = P ++ match rest with
                   | Some q => 63 :: q
                   | None => []
                   end ->
  base_path self = P.
Proof.
  intros HP Hpath. unfold base_path. rewrite Hpath.
  destruct rest as [q|].
  - now rewrite split_at_first.
  - now rewrite app_nil_r, split_without.
Qed.

Lemma query_string_absent self : ~ In 63 (path self) -> query_string self = [].
Proof.
  intros H. unfold query_string. now rewrite split_without.
Qed.

Lemma query_string_simple self P Q :
  ~ In 63 P -> ~ In 63 Q -> path self = P ++ 63 :: Q -> query_string self = Q.
Proof.
  intros HP HQ Hpath. unfold query_string.
  rewrite Hpath, split_at_first, (split_without 63 Q) by assumption.
  reflexivity.
Qed.

(** ** Signed requests *)

(** For the methods the handler passes, the signer returns: nothing it is
    given can fail to encode. *)
Lemma signature_returns rt self method body :
  is_ascii (upper method) -> encodable body ->
  exists key msg,
    utf8_encode (header_or_empty self (lit "ACCESS-SIGN")) = Some key
    /\ utf8_encode (str_of_Z (time_ms rt) ++ upper method
                    ++ sign_path self method ++ sign_body method body)
       = Some msg
    /\ generate_signature (header_or_empty self (lit "ACCESS-SIGN"))
         (str_of_Z (time_ms rt)) method
         (sign_path self method) (sign_body method body)
       = Returns (latin1_decode (b64encode (hmac_sha256 key msg))).
Proof.
  intros Hm Hb.
  destruct (encodable_latin1 _ (header_or_empty_latin1 self (lit "ACCESS-SIGN")))
    as [key Hkey].
  assert (Hmsg : encodable (str_of_Z (time_ms rt) ++ upper method
                            ++ sign_path self method
                            ++ sign_body method body)).
  { apply encodable_app; [apply encodable_ascii, str_of_Z_ascii|].
    apply encodable_app; [now apply encodable_ascii|].
    apply encodable_app; [apply encodable_latin1, sign_path_latin1|].
    unfold sign_body. destruct (str_eqb (upper method) (lit "POST"));
      [exact Hb|now exists []]. }
  destruct Hmsg as [msg Hmsg]. exists key, msg.
  split; [exact Hkey|]. split; [exact Hmsg|].
  now apply generate_signature_returns.
Qed.

(** The request an authenticated call hands to the upstream. *)
Lemma outbound_authenticated rt self method body sig :
  authenticated self = true ->
  read_body self = Returns body ->
  generate_signature (header_or_empty self (lit "ACCESS-SIGN"))
    (str_of_Z (time_ms rt)) method
    (sign_path self method) (sign_body method body) = Returns sig ->
  exists data,
    outbound rt self method
    = Returns
        {| out_url := WEEX_API_BASE ++ path self;
           out_data := data;
           out_headers :=
             public_headers self
             ++ [(lit "ACCESS-KEY", header_or_empty self (lit "ACCESS-KEY"));
                 (lit "ACCESS-SIGN", sig);
                 (lit "ACCESS-PASSPHRASE",
                  header_or_empty self (lit "ACCESS-PASSPHRASE"));
                 (lit "ACCESS-TIMESTAMP", str_of_Z (time_ms rt))];
           out_method := method |}.
Proof.
  intros Hauth Hbody Hsig.
  destruct (read_body_encodes self body Hbody) as [b Hb].
  unfold outbound, forward_headers. rewrite Hbody, Hauth. cbn [obind].
  rewrite Hsig. cbn [obind]. rewrite Hb. cbn [obind].
  destruct (truthy body); eexists; reflexivity.
Qed.

(** For a GET whose query string is plain (not empty, no further [?]), the
    sign path is the path, the [?] and the query string as received. *)
Lemma sign_path_plain_query self P Q :
  ~ In 63 P -> ~ In 63 Q -> Q <> [] -> path self = P ++ 63 :: Q ->
  sign_path self (lit "GET") = P ++ lit "?" ++ Q.
Proof.
  intros HP HQ Hne Hpath. unfold sign_path.
  rewrite (query_string_simple self P Q HP HQ Hpath).
  rewrite (base_path_before_query self P (Some Q) HP Hpath).
  destruct Q; [congruence|reflexivity].
Qed.

(** The request an authenticated GET hands to the upstream: the body is
    forwarded and stays out of the signature. *)
Lemma outbound_authenticated_get rt self n B :
  authenticated self = true ->
  content_length self = Returns n ->
  (n <= maxsize)%Z ->
  utf8_decode Strict (body_bytes self n) = Some B ->
  exists key msg,
    utf8_encode (header_or_empty self (lit "ACCESS-SIGN")) = Some key
    /\ utf8_encode (str_of_Z (time_ms rt) ++ lit "GET"
                    ++ sign_path self (lit "GET")) = Some msg
    /\ generate_signature (header_or_empty self (lit "ACCESS-SIGN"))
         (str_of_Z (time_ms rt)) (lit "GET") (sign_path self (lit "GET")) []
       = Returns (latin1_decode (b64encode (hmac_sha256 key msg)))
    /\ outbound rt self (lit "GET")
       = Returns
           {| out_url := WEEX_API_BASE ++ path self;
              out_data := if truthy B then Some (body_bytes self n) else None;
              out_headers :=
                public_headers self
                ++ [(lit "ACCESS-KEY",
                     header_or_empty self (lit "ACCESS-KEY"));
                    (lit "ACCESS-SIGN",
                     latin1_decode (b64encode (hmac_sha256 key msg)));
                    (lit "ACCESS-PASSPHRASE",
                     header_or_empty self (lit "ACCESS-PASSPHRASE"));
                    (lit "ACCESS-TIMESTAMP", str_of_Z (time_ms rt))];
              out_method := lit "GET" |}.
Proof.
  intros Hauth Hn Hmax HB.
  pose proof (read_body_decoded self n B Hn Hmax HB) as Hbody.
  destruct (signature_returns rt self (lit "GET") B)
    as (key & msg & Hkey & Hmsg & Hsig).
  { repeat constructor. }
  { exists (body_bytes self n). now apply utf8_roundtrip. }
  change (sign_body (lit "GET") B) with (@nil N) in Hmsg, Hsig.
  change (upper (lit "GET")) with (lit "GET") in Hmsg.
  rewrite app_nil_r in Hmsg.
  exists key, msg. split; [exact Hkey|]. split; [exact Hmsg|].
  split; [exact Hsig|].
  unfold outbound, forward_headers. rewrite Hbody, Hauth. cbn [obind].
  change (sign_body (lit "GET") B) with (@nil N). rewrite Hsig.
  cbn [obind]. unfold encode. rewrite (utf8_roundtrip _ _ HB).
  destruct (truthy B); reflexivity.
Qed.

(** ** Dispatch *)

(** A GET or a POST under [/capi/] is a proxied request. *)
Lemma do_GET_proxied rt self super_do_GET :
  startswith (path self) (lit "/capi/") = true ->
  do_GET rt self super_do_GET = _proxy_request rt self (lit "GET").
Proof. intros H. unfold do_GET. now rewrite H. Qed.

Lemma do_POST_proxied rt self send_error :
  startswith (path self) (lit "/capi/") = true ->
  do_POST rt self send_error = _proxy_request rt self (lit "POST").
Proof. intros H. unfold do_POST. now rewrite H. Qed.

(** ** Claims *)

(** For an authenticated GET with path P and a plain query string Q (not
    empty, no further [?]), the request is forwarded with ACCESS-SIGN =
    base64(HMAC-SHA256(secret, timestamp + "GET" + P + "?" + Q)). *)
Theorem get_plain_query_signature
    (rt : Runtime) (self : Request) (P Q : str) (n : Z) (B : str) :
  let result := _proxy_request rt self (lit "GET") fresh in
  let secret := header_or_empty self (lit "ACCESS-SIGN") in
  let timestamp := str_of_Z (time_ms rt) in
  authenticated self = true ->
  ~ In 63 P -> ~ In 63 Q -> Q <> [] ->
  path self = P ++ 63 :: Q ->
  content_length self = Returns n ->
  body_received self n ->
  utf8_decode Strict (body_bytes self n) = Some B ->
  exists key msg req,
    utf8_encode secret = Some key
    /\ utf8_encode (timestamp ++ lit "GET" ++ P ++ lit "?" ++ Q) = Some msg
    /\ upstream_calls (snd result) = [req]
    /\ dict_get (out_headers req) (lit "ACCESS-SIGN")
       = Some (latin1_decode (b64encode (hmac_sha256 key msg))).
Proof.
  cbv zeta. intros Hauth HP HQ Hne Hpath Hn Hrecv HB.
  destruct (outbound_authenticated_get rt self n B Hauth Hn
              (body_received_maxsize _ _ Hrecv) HB)
    as (key & msg & Hkey & Hmsg & _ & Hout).
  rewrite (sign_path_plain_query self P Q HP HQ Hne Hpath) in Hmsg.
  exists key, msg. eexists.
  split; [exact Hkey|]. split; [exact Hmsg|].
  rewrite proxy_request_run. cbn [snd].
  rewrite after_proxy_request_calls, Hout. split; reflexivity.
Qed.

(** At GET /capi/v2/market/ticker?symbol=cmt_btcusdt with credentials. *)
Lemma get_plain_query_signature_witness :
  let rt := Sample.runtime (Returns Sample.ok_response) in
  let self :=
    {| raw_path := blit "/capi/v2/market/ticker?symbol=cmt_btcusdt";
       raw_headers := Sample.credentials;
       rfile := [] |} in
  let result := _proxy_request rt self (lit "GET") fresh in
  exists req,
    upstream_calls (snd result) = [req]
    /\ dict_get (out_headers req) (lit "ACCESS-SIGN")
       = Some (latin1_decode
                 (b64encode
                    (hmac_sha256 (blit "S")
                       (blit "1700000000000GET/capi/v2/market/ticker?symbol=cmt_btcusdt")))).
Proof.
  cbv zeta.
  set (self := {| raw_path := blit "/capi/v2/market/ticker?symbol=cmt_btcusdt";
                  raw_headers := Sample.credentials;
                  rfile := [] |}).
  assert (Hauth : authenticated self = true) by (vm_compute; reflexivity).
  assert (HP : ~ In 63 (lit "/capi/v2/market/ticker"))
    by (vm_compute; intuition discriminate).
  assert (HQ : ~ In 63 (lit "symbol=cmt_btcusdt"))
    by (vm_compute; intuition discriminate).
  assert (Hne : lit "symbol=cmt_btcusdt" <> []) by discriminate.
  assert (Hpath : path self
                  = lit "/capi/v2/market/ticker" ++ 63 :: lit "symbol=cmt_btcusdt")
    by (vm_compute; reflexivity).
  assert (Hn : content_length self = Returns 0%Z) by (vm_compute; reflexivity).
  assert (Hrecv : body_received self 0)
    by (vm_compute; split; discriminate).
  assert (HB : utf8_decode Strict (body_bytes self 0) = Some [])
    by (vm_compute; reflexivity).
  destruct (get_plain_query_signature
              (Sample.runtime (Returns Sample.ok_response)) self
              _ _ _ _ Hauth HP HQ Hne Hpath Hn Hrecv HB)
    as (key & msg & req & Hkey & Hmsg & Hcalls & Hsign).
  exists req. split; [exact Hcalls|]. rewrite Hsign.
  vm_compute in Hkey. vm_compute in Hmsg.
  inversion Hkey. inversion Hmsg. vm_compute. reflexivity.
Defined.

(** C1 at a query string that holds a [?]: for GET
    /capi/v2/market/ticker?symbol=cmt_btcusdt?x=1 the upstream is asked for
    the whole path, while the signature covers the path only up to the
    second [?], and differs from the signature of the whole. *)
Theorem get_query_with_question_mark_signed_truncated :
  let rt := Sample.runtime (Returns Sample.ok_response) in
  let self := Sample.ticker_signed_nested_query in
  let result := _proxy_request rt self (lit "GET") fresh in
  let P := lit "/capi/v2/market/ticker" in
  let Q := lit "symbol=cmt_btcusdt?x=1" in
  path self = P ++ lit "?" ++ Q
  /\ authenticated self = true
  /\ exists req sig,
       upstream_calls (snd result) = [req]
       /\ out_url req = WEEX_API_BASE ++ P ++ lit "?" ++ Q
       /\ dict_get (out_headers req) (lit "ACCESS-SIGN") = Some sig
       /\ generate_signature (lit "S") (lit "1700000000000") (lit "GET")
            (P ++ lit "?" ++ lit "symbol=cmt_btcusdt") [] = Returns sig
       /\ generate_signature (lit "S") (lit "1700000000000") (lit "GET")
            (P ++ lit "?" ++ Q) [] <> Returns sig.
Proof.
  vm_compute. repeat split. do 2 eexists. repeat split. discriminate.
Qed.




(** C3. For an authenticated POST whose path is P, with or without a query
    string behind it, and whose body, the Content-Length bytes the request
    carries, decodes to B, the request is forwarded with ACCESS-SIGN =
    base64(HMAC-SHA256(secret, timestamp + "POST" + P + B)): the signed bytes are those of timestamp + "POST" + P
    followed by the body bytes exactly as received, and the query string
    takes no part. *)
Theorem post_signature
    (rt : Runtime) (self : Request)
    (P : str) (query : option str) (n : Z) (B : str) :
  let result := _proxy_request rt self (lit "POST") fresh in
  let secret := header_or_empty self (lit "ACCESS-SIGN") in
  let timestamp := str_of_Z (time_ms rt) in
  authenticated self = true ->
  ~ In 63 P ->
  path self = P ++ match query with
                   | Some q => 63 :: q
                   | None => []
                   end ->
  content_length self = Returns n ->
  body_received self n ->
  utf8_decode Strict (body_bytes self n) = Some B ->
  exists key head req,
    utf8_encode secret = Some key
    /\ utf8_encode (timestamp ++ lit "POST" ++ P) = Some head
    /\ utf8_encode (timestamp ++ lit "POST" ++ P ++ B)
       = Some (head ++ body_bytes self n)
    /\ generate_signature secret timestamp (lit "POST") P B
       = Returns (latin1_decode
                    (b64encode
                       (hmac_sha256 key (head ++ body_bytes self n))))
    /\ upstream_calls (snd result) = [req]
    /\ dict_get (out_headers req) (lit "ACCESS-SIGN")
       = Some (latin1_decode
                 (b64encode (hmac_sha256 key (head ++ body_bytes self n)))).
Proof.
  cbv zeta. intros Hauth HP Hpath Hn Hrecv HB.
  pose proof (read_body_decoded self n B Hn
                (body_received_maxsize _ _ Hrecv) HB) as Hbody.
  pose proof (utf8_roundtrip _ _ HB) as Hraw.
  assert (Hsp : sign_path self (lit "POST") = P).
  { unfold sign_path. cbn [andb]. 
    now apply base_path_before_query with query. }
  destruct (encodable_latin1 _
              (header_or_empty_latin1 self (lit "ACCESS-SIGN")))
    as [key Hkey].
  assert (Hhead : encodable (str_of_Z (time_ms rt) ++ lit "POST" ++ P)).
  { apply encodable_app; [apply encodable_ascii, str_of_Z_ascii|].
    apply encodable_app; [apply encodable_ascii; repeat constructor|].
    rewrite <- Hsp. apply encodable_latin1, sign_path_latin1. }
  destruct Hhead as [head Hhead].
  assert (Hmsg : utf8_encode (str_of_Z (time_ms rt) ++ lit "POST" ++ P ++ B)
                 = Some (head ++ body_bytes self n)).
  { replace (str_of_Z (time_ms rt) ++ lit "POST" ++ P ++ B)
      with ((str_of_Z (time_ms rt) ++ lit "POST" ++ P) ++ B)
      by now rewrite <- !app_assoc.
    now apply utf8_encode_app. }
  pose proof (generate_signature_returns _ _ (lit "POST") _ _ _ _ Hkey Hmsg)
    as Hsig.
  assert (Hsig' := Hsig). rewrite <- Hsp in Hsig'.
  destruct (outbound_authenticated rt self (lit "POST") B _ Hauth Hbody Hsig')
    as [data Hout].
  exists key, head. eexists.
  split; [exact Hkey|]. split; [exact Hhead|]. split; [exact Hmsg|].
  split; [exact Hsig|].
  rewrite proxy_request_run. cbn [snd].
  rewrite after_proxy_request_calls, Hout. split; reflexivity.
Qed.

(** C3 at scenario 3 of the specification, with a query string added to
    the path: the signature is the one of the bare path and the body. *)
Lemma post_signature_witness :
  let rt := Sample.runtime (Returns Sample.ok_response) in
  let self := Sample.place_order in
  let result := _proxy_request rt self (lit "POST") fresh in
  authenticated self = true
  /\ ~ In 63 (lit "/capi/v2/order/placeOrder")
  /\ path self = lit "/capi/v2/order/placeOrder" ++ 63 :: lit "src=docs"
  /\ content_length self = Returns 24%Z
  /\ body_received self 24
  /\ utf8_decode Strict (body_bytes self 24)
     = Some (latin1_decode Sample.order_body)
  /\ exists req,
       upstream_calls (snd result) = [req]
       /\ dict_get (out_headers req) (lit "ACCESS-SIGN")
          = Some (lit "iQO4PxKqbxZLslqGx+NctTUOeKxiykFkDLt4WOpkIrY=").
Proof.
  cbv zeta.
  assert (Hauth : authenticated Sample.place_order = true)
    by (vm_compute; reflexivity).
  assert (HP : ~ In 63 (lit "/capi/v2/order/placeOrder"))
    by (vm_compute; intuition discriminate).
  assert (Hpath : path Sample.place_order
                  = lit "/capi/v2/order/placeOrder"
                    ++ match Some (lit "src=docs") with
                       | Some q => 63 :: q
                       | None => []
                       end) by (vm_compute; reflexivity).
  assert (Hn : content_length Sample.place_order = Returns 24%Z)
    by (vm_compute; reflexivity).
  assert (Hrecv : body_received Sample.place_order 24)
    by (vm_compute; split; discriminate).
  assert (HB : utf8_decode Strict (body_bytes Sample.place_order 24)
               = Some (latin1_decode Sample.order_body))
    by (vm_compute; reflexivity).
  destruct (post_signature (Sample.runtime (Returns Sample.ok_response))
              Sample.place_order _ (Some (lit "src=docs")) _ _
              Hauth HP Hpath Hn Hrecv HB)
    as (key & head & req & Hkey & Hhead & _ & _ & Hcalls & Hsign).
  split; [exact Hauth|]. split; [exact HP|]. split; [exact Hpath|].
  split; [exact Hn|]. split; [exact Hrecv|]. split; [exact HB|].
  exists req. split; [exact Hcalls|]. rewrite Hsign.
  assert (Ek : key = [x53]) by (vm_compute in Hkey; congruence).
  assert (Eh : head = blit "1700000000000POST/capi/v2/order/placeOrder")
    by (vm_compute in Hhead; inversion Hhead; vm_compute; reflexivity).
  subst key head. vm_compute. reflexivity.
Defined.

(** C4. For an authenticated GET that carries the bytes its
    Content-Length announces, the body takes no part in the signature,
    whether or not one was received: the request is forwarded with
    ACCESS-SIGN = base64(HMAC-SHA256(secret, timestamp + "GET" + sign
    path)), and for a path without query string the sign path is the path
    itself. The body, if any, is still forwarded. *)
Theorem get_signature_ignores_body
    (rt : Runtime) (self : Request) (n : Z) (B : str) :
  let result := _proxy_request rt self (lit "GET") fresh in
  let secret := header_or_empty self (lit "ACCESS-SIGN") in
  let timestamp := str_of_Z (time_ms rt) in
  authenticated self = true ->
  content_length self = Returns n ->
  body_received self n ->
  utf8_decode Strict (body_bytes self n) = Some B ->
  exists key msg req,
    utf8_encode secret = Some key
    /\ utf8_encode (timestamp ++ lit "GET" ++ sign_path self (lit "GET"))
       = Some msg
    /\ generate_signature secret timestamp (lit "GET")
         (sign_path self (lit "GET")) []
       = Returns (latin1_decode (b64encode (hmac_sha256 key msg)))
    /\ upstream_calls (snd result) = [req]
    /\ dict_get (out_headers req) (lit "ACCESS-SIGN")
       = Some (latin1_decode (b64encode (hmac_sha256 key msg)))
    /\ out_data req = (if truthy B then Some (body_bytes self n) else None)
    /\ (~ In 63 (path self) -> sign_path self (lit "GET") = path self).
Proof.
  cbv zeta. intros Hauth Hn Hrecv HB.
  destruct (outbound_authenticated_get rt self n B Hauth Hn
              (body_received_maxsize _ _ Hrecv) HB)
    as (key & msg & Hkey & Hmsg & Hsig & Hout).
  exists key, msg. eexists.
  split; [exact Hkey|]. split; [exact Hmsg|]. split; [exact Hsig|].
  rewrite proxy_request_run. cbn [snd].
  rewrite after_proxy_request_calls, Hout.
  split; [reflexivity|]. split; [reflexivity|]. split; [reflexivity|].
  intros Hq. unfold sign_path. rewrite (query_string_absent self Hq).
  cbn [truthy]. rewrite andb_false_r.
  apply (base_path_before_query self (path self) None Hq).
  now rewrite app_nil_r.
Qed.

(** C4 at a GET that has a body: the body is forwarded and is no part of
    the signed message. *)
Lemma get_signature_ignores_body_witness :
  let rt := Sample.runtime (Returns Sample.ok_response) in
  let self := Sample.assets_signed in
  let result := _proxy_request rt self (lit "GET") fresh in
  authenticated self = true
  /\ content_length self = Returns 2%Z
  /\ body_received self 2
  /\ utf8_decode Strict (body_bytes self 2) = Some (lit "{}")
  /\ ~ In 63 (path self)
  /\ exists key msg req,
       key = blit "S"
       /\ msg = blit "1700000000000GET/capi/v2/account/assets"
       /\ upstream_calls (snd result) = [req]
       /\ dict_get (out_headers req) (lit "ACCESS-SIGN")
          = Some (latin1_decode (b64encode (hmac_sha256 key msg)))
       /\ out_data req = Some (blit "{}").
Proof.
  cbv zeta.
  assert (Hauth : authenticated Sample.assets_signed = true)
    by (vm_compute; reflexivity).
  assert (Hn : content_length Sample.assets_signed = Returns 2%Z)
    by (vm_compute; reflexivity).
  assert (Hrecv : body_received Sample.assets_signed 2)
    by (vm_compute; split; discriminate).
  assert (HB : utf8_decode Strict (body_bytes Sample.assets_signed 2)
               = Some (lit "{}")) by (vm_compute; reflexivity).
  assert (Hq : ~ In 63 (path Sample.assets_signed))
    by (vm_compute; intuition discriminate).
  destruct (get_signature_ignores_body
              (Sample.runtime (Returns Sample.ok_response))
              Sample.assets_signed 2%Z (lit "{}") Hauth Hn Hrecv HB)
    as (key & msg & req & Hkey & Hmsg & _ & Hcalls & Hsign & Hdata & Hsp).
  split; [exact Hauth|]. split; [exact Hn|]. split; [exact Hrecv|].
  split; [exact HB|].
  split; [exact Hq|].
  exists key, msg, req.
  rewrite (Hsp Hq) in Hmsg.
  split; [vm_compute in Hkey; inversion Hkey; reflexivity|].
  split; [vm_compute in Hmsg; inversion Hmsg; vm_compute; reflexivity|].
  split; [exact Hcalls|]. split; [exact Hsign|]. exact Hdata.
Defined.

(** C5. In a proxied request, a credential header (ACCESS-KEY, ACCESS-SIGN,
    ACCESS-PASSPHRASE) that is absent or empty makes the request public:
    when it carries the bytes its Content-Length announces and they are
    UTF-8, it is forwarded, once, and whatever is forwarded has the
    Content-Type and locale headers only, so none of ACCESS-KEY,
    ACCESS-SIGN, ACCESS-PASSPHRASE and ACCESS-TIMESTAMP. A forwarded request
    carries one of these four only when all three credential headers are
    non-empty. *)
Theorem missing_credential_forwarded_unsigned
    (rt : Runtime) (self : Request) (method : str) :
  let result := _proxy_request rt self method fresh in
  let auth_names :=
    [lit "ACCESS-KEY"; lit "ACCESS-SIGN"; lit "ACCESS-PASSPHRASE";
     lit "ACCESS-TIMESTAMP"] in
  (missing self (lit "ACCESS-KEY") \/ missing self (lit "ACCESS-SIGN")
   \/ missing self (lit "ACCESS-PASSPHRASE") ->
   (forall req, In req (upstream_calls (snd result)) ->
      out_headers req = public_headers self
      /\ forall name, In name auth_names ->
                      dict_get (out_headers req) name = None)
   /\ (forall n body,
         content_length self = Returns n ->
         body_received self n ->
         utf8_decode Strict (body_bytes self n) = Some body ->
         exists req, upstream_calls (snd result) = [req]
                     /\ out_url req = WEEX_API_BASE ++ path self
                     /\ out_method req = method))
  /\ (forall req name,
        In req (upstream_calls (snd result)) ->
        In name auth_names ->
        dict_get (out_headers req) name <> None ->
        header_or_empty self (lit "ACCESS-KEY") <> []
        /\ header_or_empty self (lit "ACCESS-SIGN") <> []
        /\ header_or_empty self (lit "ACCESS-PASSPHRASE") <> []).
Proof.
  cbv zeta.
  assert (Public : authenticated self = false ->
            forall req,
              In req (upstream_calls (snd (_proxy_request rt self method fresh))) ->
              out_headers req = public_headers self).
  { intros Hauth req Hin. apply recorded_call in Hin.
    unfold outbound, forward_headers in Hin. rewrite Hauth in Hin.
    destruct (read_body self) as [body|e]; [|discriminate].
    cbn [obind] in Hin.
    destruct (if truthy body
              then obind (encode body) (fun b => Returns (Some b))
              else Returns None) as [data|e]; [|discriminate].
    cbn [obind] in Hin. now inversion Hin. }
  assert (NoAuth : forall name,
            In name [lit "ACCESS-KEY"; lit "ACCESS-SIGN";
                     lit "ACCESS-PASSPHRASE"; lit "ACCESS-TIMESTAMP"] ->
            dict_get (public_headers self) name = None).
  { intros name [<-|[<-|[<-|[<-|[]]]]]; reflexivity. }
  split.
  - intros Hmiss. apply authenticated_false in Hmiss. split.
    + intros req Hin. rewrite (Public Hmiss req Hin). auto.
    + intros n body Hn Hrecv HB.
      pose proof (read_body_decoded self n body Hn
                    (body_received_maxsize _ _ Hrecv) HB) as Hbody.
      destruct (read_body_encodes self body Hbody) as [b Hb].
      rewrite proxy_request_run. cbn [snd].
      rewrite after_proxy_request_calls.
      unfold outbound, forward_headers. rewrite Hbody, Hmiss.
      cbn [obind]. rewrite Hb.
      destruct (truthy body); cbn [obind]; eexists; repeat split.
  - intros req name Hin Hname Hsome.
    destruct (authenticated self) eqn:Hauth.
    + unfold authenticated in Hauth.
      apply andb_true_iff in Hauth as [Hauth Hp].
      apply andb_true_iff in Hauth as [Hk Hs].
      repeat split; intros E; rewrite E in *; discriminate.
    + exfalso. apply Hsome. rewrite (Public eq_refl req Hin). auto.
Qed.

(** C5 at a request that has a key and a passphrase and no secret. *)
Lemma missing_credential_forwarded_unsigned_witness :
  let rt := Sample.runtime (Returns Sample.ok_response) in
  let result := _proxy_request rt Sample.ticker_no_secret (lit "GET") fresh in
  missing Sample.ticker_no_secret (lit "ACCESS-SIGN")
  /\ content_length Sample.ticker_no_secret = Returns 0%Z
  /\ body_received Sample.ticker_no_secret 0
  /\ utf8_decode Strict (body_bytes Sample.ticker_no_secret 0) = Some []
  /\ exists req,
       upstream_calls (snd result) = [req]
       /\ out_headers req = public_headers Sample.ticker_no_secret
       /\ dict_get (out_headers req) (lit "ACCESS-KEY") = None.
Proof.
  cbv zeta.
  assert (Hmiss : missing Sample.ticker_no_secret (lit "ACCESS-SIGN"))
    by (left; vm_compute; reflexivity).
  assert (Hn : content_length Sample.ticker_no_secret = Returns 0%Z)
    by (vm_compute; reflexivity).
  assert (Hrecv : body_received Sample.ticker_no_secret 0)
    by (vm_compute; split; discriminate).
  assert (HB : utf8_decode Strict (body_bytes Sample.ticker_no_secret 0)
               = Some []) by (vm_compute; reflexivity).
  destruct (missing_credential_forwarded_unsigned
              (Sample.runtime (Returns Sample.ok_response))
              Sample.ticker_no_secret (lit "GET"))
    as [Hpublic _].
  destruct (Hpublic (or_intror (or_introl Hmiss))) as [Hreq Hfwd].
  destruct (Hfwd 0%Z [] Hn Hrecv HB) as (req & Hcalls & _).
  assert (Hin : In req (upstream_calls
                          (snd (_proxy_request
                                  (Sample.runtime (Returns Sample.ok_response))
                                  Sample.ticker_no_secret (lit "GET") fresh))))
    by (rewrite Hcalls; left; reflexivity).
  destruct (Hreq req Hin) as [Hhs Hnone].
  split; [exact Hmiss|]. split; [exact Hn|]. split; [exact Hrecv|].
  split; [exact HB|].
  exists req. split; [exact Hcalls|]. split; [exact Hhs|].
  apply Hnone. left. reflexivity.
Defined.








(** * Further properties of the proxy *)

(** ** The request handed to the upstream *)

Lemma utf8_decode_nil_inv b : utf8_decode Strict b = Some [] -> b = [].
Proof.
  intros H. apply utf8_roundtrip in H. rewrite utf8_encode_nil in H.
  congruence.
Qed.

(** Every request the handler builds has this shape. *)
Lemma outbound_shape rt self method req :
  outbound rt self method = Returns req ->
  exists n B,
    content_length self = Returns n
    /\ utf8_decode Strict (body_bytes self n) = Some B
    /\ forward_headers rt self method B = Returns (out_headers req)
    /\ out_url req = WEEX_API_BASE ++ path self
    /\ out_method req = method
    /\ (out_data req = if truthy B then Some (body_bytes self n) else None)
    /\ read_body self = Returns B.
Proof.
  unfold outbound. intros H.
  destruct (read_body self) as [B|e] eqn:Hbody; [|discriminate].
  destruct (read_body_inv self B Hbody) as (n & Hn & _ & HB).
  exists n, B. cbn [obind] in H.
  destruct (forward_headers rt self method B) as [hs|e]; [|discriminate].
  cbn [obind] in H. unfold encode in H.
  rewrite (utf8_roundtrip _ _ HB) in H.
  destruct (truthy B); cbn [obind] in H; inversion H; subst req;
    cbn; repeat split; assumption.
Qed.

(** For the methods the handler passes, a readable body is all it takes
    for the request to be built. *)
Lemma outbound_forwards rt self method n B :
  is_ascii (upper method) ->
  content_length self = Returns n ->
  (n <= maxsize)%Z ->
  utf8_decode Strict (body_bytes self n) = Some B ->
  exists hs,
    forward_headers rt self method B = Returns hs
    /\ outbound rt self method
       = Returns
           {| out_url := WEEX_API_BASE ++ path self;
              out_data := if truthy B then Some (body_bytes self n) else None;
              out_headers := hs;
              out_method := method |}.
Proof.
  intros Hm Hn Hmax HB.
  pose proof (read_body_decoded self n B Hn Hmax HB) as Hbody.
  assert (Hhs : exists hs, forward_headers rt self method B = Returns hs).
  { unfold forward_headers. destruct (authenticated self); [|eauto].
    destruct (signature_returns rt self method B Hm) as (k & m & _ & _ & Hs).
    { exists (body_bytes self n). now apply utf8_roundtrip. }
    rewrite Hs. cbn [obind]. eauto. }
  destruct Hhs as [hs Hhs]. exists hs. split; [exact Hhs|].
  unfold outbound. rewrite Hbody. cbn [obind]. rewrite Hhs. cbn [obind].
  unfold encode. rewrite (utf8_roundtrip _ _ HB).
  destruct (truthy B); reflexivity.
Qed.

Lemma forwarded rt self method req :
  outbound rt self method = Returns req ->
  upstream_calls (snd (_proxy_request rt self method fresh)) = [req].
Proof.
  intros H. rewrite proxy_request_run. cbn [snd].
  rewrite after_proxy_request_calls. now rewrite H.
Qed.

Lemma handled_method method :
  method = lit "GET" \/ method = lit "POST" -> is_ascii (upper method).
Proof. intros [-> | ->]; repeat constructor. Qed.

(** ** Relaying *)








(** ** The inbound body *)



(** X5. When the Content-Length is absent, or is an integer that is zero
    or negative, a GET or POST is forwarded without a body, whatever bytes
    follow the headers: they are not read, so they cannot fail to decode. *)
Theorem no_content_length_no_body
    (rt : Runtime) (self : Request) (method : str) (n : Z) :
  let result := _proxy_request rt self method fresh in
  method = lit "GET" \/ method = lit "POST" ->
  content_length self = Returns n ->
  (n <= 0)%Z ->
  exists req,
    upstream_calls (snd result) = [req]
    /\ out_data req = None.
Proof.
  cbv zeta. intros Hm Hn Hle.
  assert (HB : utf8_decode Strict (body_bytes self n) = Some []).
  { rewrite (body_bytes_nonpositive self n Hle). apply utf8_decode_nil. }
  assert (Hmax : (n <= maxsize)%Z) by (unfold maxsize; lia).
  destruct (outbound_forwards rt self method n []
              (handled_method _ Hm) Hn Hmax HB)
    as (hs & _ & Hout).
  eexists. split; [exact (forwarded _ _ _ _ Hout)|reflexivity].
Qed.

(** X5 at a GET that has bytes after its headers and no Content-Length,
    and at one whose Content-Length is -5. *)
Lemma no_content_length_no_body_witness :
  let self :=
    {| raw_path := blit "/capi/v2/market/ticker";
       raw_headers := [(blit "Host", blit "localhost:8888")];
       rfile := [xff; xfe] |} in
  let self' :=
    {| raw_path := blit "/capi/v2/market/ticker";
       raw_headers := [(blit "Content-Length", blit "-5")];
       rfile := [xff; xfe] |} in
  let rt := Sample.runtime (Returns Sample.ok_response) in
  headers_get (headers self) (lit "Content-Length") = None
  /\ content_length self = Returns 0%Z
  /\ content_length self' = Returns (-5)%Z
  /\ (exists req,
        upstream_calls (snd (_proxy_request rt self (lit "GET") fresh))
        = [req]
        /\ out_data req = None)
  /\ (exists req,
        upstream_calls (snd (_proxy_request rt self' (lit "GET") fresh))
        = [req]
        /\ out_data req = None).
Proof.
  cbv zeta.
  set (self := {| raw_path := blit "/capi/v2/market/ticker";
                  raw_headers := [(blit "Host", blit "localhost:8888")];
                  rfile := [xff; xfe] |}).
  set (self' := {| raw_path := blit "/capi/v2/market/ticker";
                   raw_headers := [(blit "Content-Length", blit "-5")];
                   rfile := [xff; xfe] |}).
  assert (Hget : headers_get (headers self) (lit "Content-Length") = None)
    by (vm_compute; reflexivity).
  assert (Hn : content_length self = Returns 0%Z)
    by (vm_compute; reflexivity).
  assert (Hn' : content_length self' = Returns (-5)%Z)
    by (vm_compute; reflexivity).
  assert (H0 : (0 <= 0)%Z) by (vm_compute; discriminate).
  assert (H5 : (-5 <= 0)%Z) by (vm_compute; discriminate).
  exact (conj Hget (conj Hn (conj Hn'
           (conj
              (no_content_length_no_body
                 (Sample.runtime (Returns Sample.ok_response)) self
                 (lit "GET") 0%Z (or_introl eq_refl) Hn H0)
              (no_content_length_no_body
                 (Sample.runtime (Returns Sample.ok_response)) self'
                 (lit "GET") (-5)%Z (or_introl eq_refl) Hn' H5))))).
Defined.

(** X6. A body that is read reaches the upstream byte for byte: for a
    request that carries the bytes its positive Content-Length n
    announces, valid UTF-8, the data of the forwarded GET or POST are
    exactly the first n bytes after the headers, and what lies beyond them
    is not sent. *)
Theorem body_forwarded_verbatim
    (rt : Runtime) (self : Request) (method : str) (n : Z) :
  let result := _proxy_request rt self method fresh in
  let received := firstn (Z.to_nat n) (rfile self) in
  method = lit "GET" \/ method = lit "POST" ->
  content_length self = Returns n ->
  (0 < n)%Z ->
  body_received self n ->
  utf8_decode Strict received <> None ->
  List.length received = Z.to_nat n
  /\ exists req,
       upstream_calls (snd result) = [req]
       /\ out_data req = Some received.
Proof.
  cbv zeta. intros Hm Hn Hpos Hrecv Hvalid.
  assert (Hlen : List.length (firstn (Z.to_nat n) (rfile self))
                 = Z.to_nat n).
  { apply firstn_length_le. unfold body_received in Hrecv. lia. }
  split; [exact Hlen|].
  destruct (utf8_decode Strict (firstn (Z.to_nat n) (rfile self)))
    as [B|] eqn:HB; [clear Hvalid|congruence].
  assert (Hb : body_bytes self n = firstn (Z.to_nat n) (rfile self)).
  { unfold body_bytes. apply Z.ltb_lt in Hpos. now rewrite Hpos. }
  rewrite <- Hb in HB.
  destruct (outbound_forwards rt self method n B (handled_method _ Hm) Hn
              (body_received_maxsize _ _ Hrecv) HB)
    as (hs & _ & Hout).
  eexists. split; [exact (forwarded _ _ _ _ Hout)|].
  cbn [out_data]. rewrite Hb.
  destruct B as [|c B]; [|reflexivity].
  rewrite Hb in HB. apply utf8_decode_nil_inv in HB.
  rewrite HB in Hlen. cbn [List.length] in Hlen. lia.
Qed.

(** X6 at a POST whose Content-Length covers 24 of the 26 bytes sent. *)
Lemma body_forwarded_verbatim_witness :
  let self :=
    {| raw_path := blit "/capi/v2/order/placeOrder";
       raw_headers := [(blit "Content-Length", blit "24")];
       rfile := Sample.order_body ++ [xff; xfe] |} in
  let result :=
    _proxy_request (Sample.runtime (Returns Sample.ok_response)) self
      (lit "POST") fresh in
  content_length self = Returns 24%Z
  /\ body_received self 24
  /\ firstn (Z.to_nat 24) (rfile self) = Sample.order_body
  /\ utf8_decode Strict Sample.order_body <> None
  /\ exists req,
       upstream_calls (snd result) = [req]
       /\ out_data req = Some Sample.order_body.
Proof.
  cbv zeta.
  set (self := {| raw_path := blit "/capi/v2/order/placeOrder";
                  raw_headers := [(blit "Content-Length", blit "24")];
                  rfile := Sample.order_body ++ [xff; xfe] |}).
  assert (Hn : content_length self = Returns 24%Z)
    by (vm_compute; reflexivity).
  assert (Hrecv : body_received self 24)
    by (vm_compute; split; discriminate).
  assert (Hf : firstn (Z.to_nat 24) (rfile self) = Sample.order_body)
    by (vm_compute; reflexivity).
  assert (Hv : utf8_decode Strict Sample.order_body <> None)
    by (vm_compute; discriminate).
  assert (Hv' : utf8_decode Strict (firstn (Z.to_nat 24) (rfile self))
                <> None) by (rewrite Hf; exact Hv).
  split; [exact Hn|]. split; [exact Hrecv|]. split; [exact Hf|].
  split; [exact Hv|].
  rewrite <- Hf.
  exact (proj2 (body_forwarded_verbatim
                  (Sample.runtime (Returns Sample.ok_response)) self
                  (lit "POST") 24%Z (or_intror eq_refl) Hn eq_refl Hrecv
                  Hv')).
Defined.

(** ** int and str of an integer *)

Local Transparent int_of_str str_of_Z.

Lemma strip_digits s :
  Forall (fun c => is_space c = false) s -> strip s = s.
Proof.
  intros H. unfold strip.
  assert (L : forall t, Forall (fun c => is_space c = false) t ->
                        lstrip t = t).
  { intros t Ht. destruct Ht as [|c t Hc Ht]; [reflexivity|].
    cbn. now rewrite Hc. }
  rewrite (L s H), L, rev_involutive; [reflexivity|].
  now apply Forall_rev.
Qed.

Lemma string_of_uint_digits d :
  is_digits (lit (DecimalString.NilEmpty.string_of_uint d)).
Proof. induction d; constructor; (reflexivity || assumption). Qed.

Lemma digits_not_space s :
  is_digits s -> Forall (fun c => is_space c = false) s.
Proof.
  apply Forall_impl. intros c Hc. apply between_spec in Hc.
  unfold is_space, between.
  repeat match goal with
         | |- context [?a <=? ?b] => destruct (N.leb_spec a b)
         | |- context [?a =? ?b] => destruct (N.eqb_spec a b)
         end; try reflexivity; lia.
Qed.

Lemma digits_value_uint d :
  forall acc after,
    d <> Decimal.Nil \/ after = true ->
    digits_value acc after (lit (DecimalString.NilEmpty.string_of_uint d))
    = Some (uint_value acc d).
Proof.
  induction d; intros acc after H;
    try (cbn; apply IHd; now right).
  destruct H as [H| ->]; [congruence|reflexivity].
Qed.

Lemma uint_value_acc d :
  forall acc, N.pos (Pos.of_uint_acc d acc) = uint_value (N.pos acc) d.
Proof.
  induction d; intros acc; cbn [Pos.of_uint_acc uint_value];
    try reflexivity; rewrite IHd; f_equal; lia.
Qed.

Lemma uint_value_of_uint d : uint_value 0 d = Pos.of_uint d.
Proof.
  induction d; cbn [Pos.of_uint uint_value]; try reflexivity;
    try (rewrite uint_value_acc; reflexivity).
  exact IHd.
Qed.

Lemma digits_value_nilzero d :
  digits_value 0 false (lit (DecimalString.NilZero.string_of_uint d))
  = Some (N.of_uint d).
Proof.
  unfold N.of_uint. rewrite <- uint_value_of_uint.
  destruct d; [reflexivity|apply digits_value_uint; left; discriminate..].
Qed.

Lemma nilzero_digits d :
  is_digits (lit (DecimalString.NilZero.string_of_uint d)).
Proof.
  destruct d; [repeat constructor|exact (string_of_uint_digits _)..].
Qed.

Lemma nilzero_int_of_str d :
  int_of_str (lit (DecimalString.NilZero.string_of_uint d))
  = Some (Z.of_uint d).
Proof.
  unfold int_of_str.
  rewrite strip_digits by apply digits_not_space, nilzero_digits.
  pose proof (digits_value_nilzero d) as H.
  pose proof (nilzero_digits d) as Hd.
  destruct (lit (DecimalString.NilZero.string_of_uint d)) as [|c s] eqn:E.
  - rewrite H. reflexivity.
  - inversion Hd as [|? ? Hc _]; subst. apply between_spec in Hc.
    destruct c as [|p]; [lia|].
    do 6 (destruct p as [p|p|]; try lia); rewrite H; reflexivity.
Qed.

(** [int(str(z)) == z]. *)
Lemma int_of_str_of_Z z : int_of_str (str_of_Z z) = Some z.
Proof.
  rewrite <- (DecimalZ.of_to z) at 2. unfold str_of_Z.
  destruct (Z.to_int z) as [d|d];
    cbn [DecimalString.NilZero.string_of_int Z.of_int].
  - apply nilzero_int_of_str.
  - change (lit (String "-" (DecimalString.NilZero.string_of_uint d)))
      with (45 :: lit (DecimalString.NilZero.string_of_uint d)).
    unfold int_of_str. rewrite strip_digits.
    + rewrite digits_value_nilzero. reflexivity.
    + constructor; [reflexivity|].
      apply digits_not_space, nilzero_digits.
Qed.

Local Opaque int_of_str str_of_Z.

(** ** What is forwarded *)

Lemma forward_headers_cases rt self method B hs :
  forward_headers rt self method B = Returns hs ->
  (authenticated self = false /\ hs = public_headers self)
  \/ (authenticated self = true
      /\ exists sig,
           generate_signature (header_or_empty self (lit "ACCESS-SIGN"))
             (str_of_Z (time_ms rt)) method
             (sign_path self method) (sign_body method B) = Returns sig
           /\ hs = public_headers self
                   ++ [(lit "ACCESS-KEY",
                        header_or_empty self (lit "ACCESS-KEY"));
                       (lit "ACCESS-SIGN", sig);
                       (lit "ACCESS-PASSPHRASE",
                        header_or_empty self (lit "ACCESS-PASSPHRASE"));
                       (lit "ACCESS-TIMESTAMP", str_of_Z (time_ms rt))]).
Proof.
  unfold forward_headers. destruct (authenticated self).
  - destruct (generate_signature _ _ _ _ _) as [sig|e]; [|discriminate].
    cbn [obind]. intros H. inversion H. right. eauto.
  - intros H. inversion H. now left.
Qed.





(** X9. Of the inbound headers only locale and the three credentials can
    reach the upstream. Every forwarded request has Content-Type:
    application/json, whatever content type came in, and locale set to the
    inbound locale or, without one, en-US; its header names are among
    Content-Type, locale, ACCESS-KEY, ACCESS-SIGN, ACCESS-PASSPHRASE and
    ACCESS-TIMESTAMP. *)
Theorem forwarded_header_names
    (rt : Runtime) (self : Request) (method : str) (req : OutRequest) :
  let result := _proxy_request rt self method fresh in
  In req (upstream_calls (snd result)) ->
  dict_get (out_headers req) (lit "Content-Type")
  = Some (lit "application/json")
  /\ dict_get (out_headers req) (lit "locale")
     = Some match headers_get (headers self) (lit "locale") with
            | Some v => v
            | None => lit "en-US"
            end
  /\ forall name v,
       In (name, v) (out_headers req) ->
       In name [lit "Content-Type"; lit "locale"; lit "ACCESS-KEY";
                lit "ACCESS-SIGN"; lit "ACCESS-PASSPHRASE";
                lit "ACCESS-TIMESTAMP"].
Proof.
  cbv zeta. intros Hin. apply recorded_call in Hin.
  destruct (outbound_shape rt self method req Hin)
    as (n & B & _ & _ & Hhs & _).
  destruct (forward_headers_cases rt self method B _ Hhs)
    as [[_ ->]|[_ (sig & _ & ->)]];
    (split; [reflexivity|]; split; [reflexivity|]);
    intros name v Hnv; cbn in Hnv;
    repeat (destruct Hnv as [Hnv|Hnv];
            [inversion Hnv; subst; cbn; tauto|]);
    destruct Hnv.
Qed.

(** X9 at a request that brings a content type, a cookie and a locale. *)
Lemma forwarded_header_names_witness :
  let self :=
    {| raw_path := blit "/capi/v2/market/ticker";
       raw_headers := [(blit "Content-Type", blit "text/plain");
                       (blit "Cookie", blit "sid=1");
                       (blit "Locale", blit "zh-CN")];
       rfile := [] |} in
  let result :=
    _proxy_request (Sample.runtime (Returns Sample.ok_response)) self
      (lit "GET") fresh in
  exists req,
    In req (upstream_calls (snd result))
    /\ dict_get (out_headers req) (lit "Content-Type")
       = Some (lit "application/json")
    /\ dict_get (out_headers req) (lit "locale") = Some (lit "zh-CN")
    /\ ~ In (lit "Cookie") (List.map fst (out_headers req)).
Proof.
  cbv zeta.
  set (self := {| raw_path := blit "/capi/v2/market/ticker";
                  raw_headers := [(blit "Content-Type", blit "text/plain");
                                  (blit "Cookie", blit "sid=1");
                                  (blit "Locale", blit "zh-CN")];
                  rfile := [] |}).
  assert (Hin : exists req,
             In req (upstream_calls
                       (snd (_proxy_request
                               (Sample.runtime (Returns Sample.ok_response))
                               self (lit "GET") fresh)))).
  { vm_compute. eexists. left. reflexivity. }
  destruct Hin as [req Hin]. exists req.
  pose proof (forwarded_header_names _ _ _ req Hin) as (Hct & Hloc & Hnames).
  split; [exact Hin|]. split; [exact Hct|]. split; [exact Hloc|].
  intros Hc. apply in_map_iff in Hc. destruct Hc as ([k v] & Hk & Hkv).
  cbn [fst] in Hk. subst k. apply Hnames in Hkv.
  vm_compute in Hkv. intuition discriminate.
Defined.

(** X10. An authenticated request is forwarded with the inbound key and
    passphrase unchanged, with ACCESS-TIMESTAMP the clock's milliseconds in
    decimal, which [int] reads back as that number, and with ACCESS-SIGN
    the signature of that very timestamp: the timestamp signed and the
    timestamp sent are one. *)
Theorem authenticated_headers
    (rt : Runtime) (self : Request) (method : str) (req : OutRequest) :
  let result := _proxy_request rt self method fresh in
  let timestamp := str_of_Z (time_ms rt) in
  authenticated self = true ->
  In req (upstream_calls (snd result)) ->
  dict_get (out_headers req) (lit "ACCESS-KEY")
  = Some (header_or_empty self (lit "ACCESS-KEY"))
  /\ dict_get (out_headers req) (lit "ACCESS-PASSPHRASE")
     = Some (header_or_empty self (lit "ACCESS-PASSPHRASE"))
  /\ dict_get (out_headers req) (lit "ACCESS-TIMESTAMP") = Some timestamp
  /\ int_of_str timestamp = Some (time_ms rt)
  /\ exists sig B,
       read_body self = Returns B
       /\ dict_get (out_headers req) (lit "ACCESS-SIGN") = Some sig
       /\ generate_signature (header_or_empty self (lit "ACCESS-SIGN"))
            timestamp method (sign_path self method) (sign_body method B)
          = Returns sig.
Proof.
  cbv zeta. intros Hauth Hin. apply recorded_call in Hin.
  destruct (outbound_shape rt self method req Hin)
    as (n & B & Hn & HB & Hhs & _ & _ & _ & Hbody).
  destruct (forward_headers_cases rt self method B _ Hhs)
    as [[Hno _]|[_ (sig & Hsig & ->)]]; [congruence|].
  split; [reflexivity|]. split; [reflexivity|]. split; [reflexivity|].
  split; [apply int_of_str_of_Z|].
  exists sig, B. split; [exact Hbody|].
  split; [reflexivity|exact Hsig].
Qed.

(** X10 at scenario 3 of the specification. *)
Lemma authenticated_headers_witness :
  let rt := Sample.runtime (Returns Sample.ok_response) in
  let result := _proxy_request rt Sample.place_order (lit "POST") fresh in
  authenticated Sample.place_order = true
  /\ exists req,
       In req (upstream_calls (snd result))
       /\ dict_get (out_headers req) (lit "ACCESS-KEY") = Some (lit "K")
       /\ dict_get (out_headers req) (lit "ACCESS-PASSPHRASE")
          = Some (lit "P")
       /\ dict_get (out_headers req) (lit "ACCESS-TIMESTAMP")
          = Some (lit "1700000000000").
Proof.
  cbv zeta.
  assert (Hauth : authenticated Sample.place_order = true)
    by (vm_compute; reflexivity).
  assert (Hin : exists req,
             In req (upstream_calls
                       (snd (_proxy_request
                               (Sample.runtime (Returns Sample.ok_response))
                               Sample.place_order (lit "POST") fresh)))).
  { vm_compute. eexists. left. reflexivity. }
  destruct Hin as [req Hin]. split; [exact Hauth|]. exists req.
  pose proof (authenticated_headers _ _ _ req Hauth Hin)
    as (Hk & Hp & Ht & _ & _).
  split; [exact Hin|]. split; [exact Hk|]. split; [exact Hp|]. exact Ht.
Defined.

(** ** The signer *)

Local Transparent generate_signature.

Lemma digest_length msg : List.length (SHA256.digest msg) = 32%nat.
Proof. reflexivity. Qed.

Lemma b64encode_32 (l : bytes) :
  List.length l = 32%nat ->
  List.length (b64encode l) = 44%nat /\ last (b64encode l) x00 = x3d.
Proof.
  intros H.
  do 32 (destruct l as [|? l]; [discriminate H|]).
  destruct l; [|discriminate H]. split; reflexivity.
Qed.

Lemma last_of_map {A B} (f : A -> B) (l : list A) (d : A) :
  last (List.map f l) (f d) = f (last l d).
Proof.
  induction l as [|a l IH]; [reflexivity|].
  destruct l; [reflexivity|exact IH].
Qed.

Lemma upper_lower m : upper (lower m) = upper m.
Proof.
  unfold upper, lower. rewrite map_map. apply map_ext. intros c.
  destruct (between 65 90 c) eqn:E1.
  - apply between_spec in E1.
    assert (E2 : between 97 122 (c + 32) = true) by (apply between_spec; lia).
    assert (E3 : between 97 122 c = false).
    { destruct (between 97 122 c) eqn:E; [|reflexivity].
      apply between_spec in E. lia. }
    rewrite E2, E3. lia.
  - reflexivity.
Qed.

(** X11. A signature, whenever the signer returns one, is 44 characters of
    the base64 alphabet, all ASCII, the last one [=]. *)
Theorem signature_shape
    (secret timestamp method path body sig : str) :
  generate_signature secret timestamp method path body = Returns sig ->
  List.length sig = 44%nat /\ is_ascii sig /\ last sig 0 = 61.
Proof.
  unfold generate_signature, encode, decode.
  destruct (utf8_encode secret) as [key|]; [|discriminate].
  destruct (utf8_encode _) as [msg|]; [|discriminate].
  cbn [obind]. rewrite b64encode_decodes.
  assert (Hd : List.length (hmac_sha256 key msg) = 32%nat)
    by (unfold hmac_sha256; apply digest_length).
  generalize dependent (hmac_sha256 key msg). intros d Hd H.
  assert (E : sig = latin1_decode (b64encode d)) by congruence.
  subst sig. clear H.
  destruct (b64encode_32 d Hd) as [Hlen Hlast].
  unfold latin1_decode. rewrite length_map. split; [exact Hlen|]. split.
  - apply Forall_map.
    exact (b64encode_ascii_len _ _ (Nat.le_refl _)).
  - change 0 with (Byte.to_N x00). rewrite last_of_map, Hlast. reflexivity.
Qed.

(** X11 at scenario 3 of the specification. *)
Lemma signature_shape_witness :
  generate_signature (lit "S") (lit "1700000000000") (lit "POST")
    (lit "/capi/v2/order/placeOrder") (latin1_decode Sample.order_body)
  = Returns (lit "iQO4PxKqbxZLslqGx+NctTUOeKxiykFkDLt4WOpkIrY=")
  /\ List.length (lit "iQO4PxKqbxZLslqGx+NctTUOeKxiykFkDLt4WOpkIrY=") = 44%nat.
Proof.
  assert (H : generate_signature (lit "S") (lit "1700000000000") (lit "POST")
                (lit "/capi/v2/order/placeOrder")
                (latin1_decode Sample.order_body)
              = Returns (lit "iQO4PxKqbxZLslqGx+NctTUOeKxiykFkDLt4WOpkIrY="))
    by (vm_compute; reflexivity).
  split; [exact H|].
  exact (proj1 (signature_shape _ _ _ _ _ _ H)).
Defined.

(** X12. The signer takes the method in any case: two ASCII method names
    that differ only in case give the same result. *)
Theorem signature_ignores_method_case
    (secret timestamp method method' path body : str) :
  is_ascii method -> is_ascii method' ->
  lower method = lower method' ->
  generate_signature secret timestamp method path body
  = generate_signature secret timestamp method' path body.
Proof.
  intros _ _ H. unfold generate_signature.
  now rewrite <- (upper_lower method), H, upper_lower.
Qed.

(** X12 at [post] and [POST]. *)
Lemma signature_ignores_method_case_witness :
  is_ascii (lit "post") /\ is_ascii (lit "POST")
  /\ lower (lit "post") = lower (lit "POST")
  /\ generate_signature (lit "S") (lit "1700000000000") (lit "post")
       (lit "/capi/v2/order/placeOrder") []
     = generate_signature (lit "S") (lit "1700000000000") (lit "POST")
         (lit "/capi/v2/order/placeOrder") [].
Proof.
  assert (H1 : is_ascii (lit "post")) by repeat constructor.
  assert (H2 : is_ascii (lit "POST")) by repeat constructor.
  assert (H3 : lower (lit "post") = lower (lit "POST")) by reflexivity.
  split; [exact H1|]. split; [exact H2|]. split; [exact H3|].
  exact (signature_ignores_method_case _ _ _ _ _ _ H1 H2 H3).
Defined.

Local Opaque generate_signature.

(** ** The sign path *)

Local Transparent split.

Lemma join_split sep s : join [sep] (split sep s) = s.
Proof.
  induction s as [|c s IH]; [reflexivity|].
  cbn [split]. destruct (c =? sep) eqn:E.
  - apply N.eqb_eq in E. subst c.
    destruct (split sep s) as [|part parts] eqn:Es.
    + now destruct (split_not_nil sep s).
    + change (join [sep] ([] :: part :: parts))
        with ([] ++ [sep] ++ join [sep] (part :: parts)).
      now rewrite IH.
  - destruct (split sep s) as [|part parts] eqn:Es.
    + now destruct (split_not_nil sep s).
    + destruct parts as [|p2 parts].
      * change (c :: part = c :: s). change (part = s) in IH.
        now rewrite IH.
      * change ((c :: part) ++ [sep] ++ join [sep] (p2 :: parts) = c :: s).
        change (part ++ [sep] ++ join [sep] (p2 :: parts) = s) in IH.
        now rewrite <- IH.
Qed.

Lemma split_head_clean sep s : ~ In sep (nth 0 (split sep s) []).
Proof.
  induction s as [|c s IH]; [intros []|].
  cbn [split]. destruct (c =? sep) eqn:E; [intros []|].
  destruct (split sep s) as [|part parts]; cbn [nth] in *.
  - intros [H|[]]. subst c. now rewrite N.eqb_refl in E.
  - intros [H|H]; [subst c; now rewrite N.eqb_refl in E|auto].
Qed.

Local Opaque split.

Lemma path_parts self :
  exists rest,
    path self = base_path self ++ rest
    /\ (rest = []
        \/ exists more,
             rest = 63 :: query_string self ++ more
             /\ (more = [] \/ exists r, more = 63 :: r)).
Proof.
  unfold base_path, query_string.
  pose proof (join_split 63 (path self)) as J.
  destruct (split 63 (path self)) as [|base [|query parts]] eqn:E.
  - now destruct (split_not_nil 63 (path self)).
  - exists []. cbn in *. rewrite app_nil_r. auto.
  - cbn [nth List.length Nat.ltb Nat.leb].
    exists (63 :: query ++ match parts with
                           | [] => []
                           | _ => 63 :: join [63] parts
                           end).
    split.
    + rewrite <- J. cbn [join]. f_equal. cbn [app]. f_equal.
      destruct parts; [now rewrite app_nil_r|reflexivity].
    + right. eexists. split; [reflexivity|].
      destruct parts; [now left|right; eauto].
Qed.

(** X13. The sign path is the inbound path cut at a [?]: the inbound path
    is the sign path followed by nothing or by a [?] and more. For a method
    other than GET the sign path holds no [?] at all. *)
Theorem sign_path_is_prefix (self : Request) (method : str) :
  (exists rest,
     path self = sign_path self method ++ rest
     /\ (rest = [] \/ exists r, rest = 63 :: r))
  /\ (upper method <> lit "GET" -> ~ In 63 (sign_path self method)).
Proof.
  split.
  - destruct (path_parts self) as (rest & Hp & Hrest). unfold sign_path.
    destruct (str_eqb (upper method) (lit "GET")
              && truthy (query_string self)) eqn:E.
    + apply andb_true_iff in E as [_ Hq].
      destruct Hrest as [->|(more & -> & Hmore)].
      * exfalso. rewrite app_nil_r in Hp.
        assert (Hno : ~ In 63 (path self))
          by (rewrite Hp; apply split_head_clean).
        rewrite (query_string_absent self Hno) in Hq. discriminate.
      * exists more. split; [|exact Hmore].
        rewrite Hp. rewrite <- !app_assoc. reflexivity.
    + exists rest. split; [exact Hp|].
      destruct Hrest as [->|(more & -> & _)]; [now left|right; eauto].
  - intros Hm. unfold sign_path, str_eqb.
    destruct (list_eq_dec N.eq_dec (upper method) (lit "GET")) as [E|_];
      [contradiction|].
    cbn [andb]. apply split_head_clean.
Qed.

(** X13 at a POST with a query string. *)
Lemma sign_path_is_prefix_witness :
  upper (lit "POST") <> lit "GET"
  /\ path Sample.place_order
     = sign_path Sample.place_order (lit "POST") ++ lit "?src=docs"
  /\ ~ In 63 (sign_path Sample.place_order (lit "POST")).
Proof.
  assert (Hm : upper (lit "POST") <> lit "GET") by discriminate.
  split; [exact Hm|]. split; [vm_compute; reflexivity|].
  exact (proj2 (sign_path_is_prefix Sample.place_order (lit "POST")) Hm).
Defined.

(** X14. A GET whose path ends in a bare [?] (an empty query string), and
    which carries the bytes its Content-Length announces, is signed
    without the [?], while the upstream is asked for the path with it: the
    signature is base64(HMAC-SHA256(secret, timestamp + "GET" +
    P)) for the inbound path P + "?". *)
Theorem get_empty_query_signed_bare
    (rt : Runtime) (self : Request) (P : str) (n : Z) (B : str) :
  let result := _proxy_request rt self (lit "GET") fresh in
  authenticated self = true ->
  ~ In 63 P ->
  path self = P ++ lit "?" ->
  content_length self = Returns n ->
  body_received self n ->
  utf8_decode Strict (body_bytes self n) = Some B ->
  exists key msg req,
    utf8_encode (header_or_empty self (lit "ACCESS-SIGN")) = Some key
    /\ utf8_encode (str_of_Z (time_ms rt) ++ lit "GET" ++ P) = Some msg
    /\ upstream_calls (snd result) = [req]
    /\ out_url req = lit "https://api-contract.weex.com" ++ P ++ lit "?"
    /\ dict_get (out_headers req) (lit "ACCESS-SIGN")
       = Some (latin1_decode (b64encode (hmac_sha256 key msg))).
Proof.
  cbv zeta. intros Hauth HP Hpath Hn Hrecv HB.
  destruct (outbound_authenticated_get rt self n B Hauth Hn
              (body_received_maxsize _ _ Hrecv) HB)
    as (key & msg & Hkey & Hmsg & _ & Hout).
  assert (Hsp : sign_path self (lit "GET") = P).
  { unfold sign_path.
    assert (Hq : query_string self = []).
    { unfold query_string. rewrite Hpath.
      change (lit "?") with [63]. rewrite split_at_first by exact HP.
      reflexivity. }
    rewrite Hq. cbn [truthy]. rewrite andb_false_r.
    apply (base_path_before_query self P (Some []) HP Hpath). }
  rewrite Hsp in Hmsg.
  exists key, msg. eexists.
  split; [exact Hkey|]. split; [exact Hmsg|].
  split; [exact (forwarded _ _ _ _ Hout)|].
  cbn [out_url out_headers]. rewrite Hpath. split; reflexivity.
Qed.

(** X14 at GET /capi/v2/account/assets? with credentials. *)
Lemma get_empty_query_signed_bare_witness :
  let self :=
    {| raw_path := blit "/capi/v2/account/assets?";
       raw_headers := Sample.credentials;
       rfile := [] |} in
  let result :=
    _proxy_request (Sample.runtime (Returns Sample.ok_response)) self
      (lit "GET") fresh in
  authenticated self = true
  /\ path self = lit "/capi/v2/account/assets" ++ lit "?"
  /\ content_length self = Returns 0%Z
  /\ body_received self 0
  /\ exists req,
       upstream_calls (snd result) = [req]
       /\ out_url req
          = lit "https://api-contract.weex.com/capi/v2/account/assets?"
       /\ dict_get (out_headers req) (lit "ACCESS-SIGN")
          = Some (latin1_decode
                    (b64encode
                       (hmac_sha256 (blit "S")
                          (blit "1700000000000GET/capi/v2/account/assets")))).
Proof.
  cbv zeta.
  set (self := {| raw_path := blit "/capi/v2/account/assets?";
                  raw_headers := Sample.credentials;
                  rfile := [] |}).
  assert (Hauth : authenticated self = true) by (vm_compute; reflexivity).
  assert (HP : ~ In 63 (lit "/capi/v2/account/assets"))
    by (vm_compute; intuition discriminate).
  assert (Hpath : path self = lit "/capi/v2/account/assets" ++ lit "?")
    by (vm_compute; reflexivity).
  assert (Hn : content_length self = Returns 0%Z) by (vm_compute; reflexivity).
  assert (Hrecv : body_received self 0)
    by (vm_compute; split; discriminate).
  assert (HB : utf8_decode Strict (body_bytes self 0) = Some [])
    by (vm_compute; reflexivity).
  destruct (get_empty_query_signed_bare
              (Sample.runtime (Returns Sample.ok_response)) self
              _ _ _ Hauth HP Hpath Hn Hrecv HB)
    as (key & msg & req & Hkey & Hmsg & Hcalls & Hurl & Hsign).
  split; [exact Hauth|]. split; [exact Hpath|]. split; [exact Hn|].
  split; [exact Hrecv|].
  exists req. split; [exact Hcalls|]. split; [exact Hurl|].
  rewrite Hsign. vm_compute in Hkey. vm_compute in Hmsg.
  injection Hkey as <-. injection Hmsg as <-. vm_compute. reflexivity.
Defined.

(** * Properties of the direct client *)

Local Transparent generate_signature.

(** The client's signer is the proxy's, with the module's secret. *)
Lemma client_signature J (c : TestApi.Client J) timestamp method path body :
  TestApi.generate_signature J c timestamp method path body
  = generate_signature (TestApi.API_SECRET c) timestamp method path body.
Proof. reflexivity. Qed.

Local Opaque generate_signature.

Lemma query_of_given (params : option (list (str * str))) :
  TestApi.given params = true -> TestApi.query_of params <> [].
Proof.
  destruct params as [[|[k v] rest]|]; try discriminate. intros _.
  unfold TestApi.query_of. cbn [TestApi.items List.map fst snd].
  assert (H : forall t : str, k ++ lit "=" ++ v ++ t <> []).
  { intros t E. apply app_eq_nil in E as [_ E]. discriminate E. }
  destruct rest as [|kv rest].
  - cbn [join]. specialize (H []). now rewrite app_nil_r in H.
  - change (join (lit "&") ((k ++ lit "=" ++ v) :: List.map _ (kv :: rest)))
      with ((k ++ lit "=" ++ v) ++ lit "&" ++ join (lit "&")
              (List.map (fun kv => fst kv ++ lit "=" ++ snd kv) (kv :: rest))).
    rewrite <- !app_assoc. apply H.
Qed.

Lemma upper_ascii m : is_ascii m -> is_ascii (upper m).
Proof.
  induction 1 as [|ch m Hc Hm IH]; [constructor|].
  cbn [upper List.map]. constructor; [|exact IH].
  destruct (between 97 122 ch); lia.
Qed.

(** X15. For an ASCII method name that is neither GET nor POST in any
    case, the client makes no call at all and returns the dict
    error = "Unsupported method: " followed by the method as given,
    provided the secret and the path are text that can be encoded. *)
Theorem client_unsupported_method
    (J : Type) (c : TestApi.Client J) (method path : str)
    (params : option (list (str * str)))
    (body : option (list (str * jvalue))) :
  is_ascii method ->
  upper method <> lit "GET" ->
  upper method <> lit "POST" ->
  encodable (TestApi.API_SECRET c) ->
  encodable path ->
  TestApi.make_request J c method path params body
  = (Returns (TestApi.ErrorDict (lit "Unsupported method: " ++ method)), []).
Proof.
  intros Hm Hg Hp [key Hkey] Hpath. unfold TestApi.make_request. cbv zeta.
  assert (Eg : str_eqb (upper method) (lit "GET") = false).
  { unfold str_eqb. now destruct (list_eq_dec N.eq_dec _ _). }
  assert (Ep : str_eqb (upper method) (lit "POST") = false).
  { unfold str_eqb. now destruct (list_eq_dec N.eq_dec _ _). }
  rewrite Eg, Ep. cbn [andb negb]. rewrite client_signature.
  assert (Hmsg : encodable
                   (str_of_Z (TestApi.client_time_ms c) ++ upper method
                    ++ path
                    ++ (if TestApi.given body
                        then json_dumps (TestApi.items body) else []))).
  { apply encodable_app; [apply encodable_ascii, str_of_Z_ascii|].
    apply encodable_app; [apply encodable_ascii, upper_ascii, Hm|].
    apply encodable_app; [exact Hpath|].
    destruct (TestApi.given body);
      [apply encodable_ascii, json_dumps_ascii|now exists []]. }
  destruct Hmsg as [msg Hmsg].
  match goal with
  | |- context [generate_signature ?a ?b ?m ?p ?q] =>
      replace (generate_signature a b m p q)
        with (Returns (latin1_decode (b64encode (hmac_sha256 key msg))))
        by (symmetry;
            exact (generate_signature_returns _ _ _ _ _ key msg Hkey Hmsg))
  end.
  reflexivity.
Qed.

(** X15 at DELETE. *)
Lemma client_unsupported_method_witness :
  is_ascii (lit "delete")
  /\ upper (lit "delete") <> lit "GET"
  /\ upper (lit "delete") <> lit "POST"
  /\ encodable (lit "S")
  /\ encodable (lit "/capi/v2/order/cancel")
  /\ TestApi.make_request unit (ClientSample.client (Returns tt))
       (lit "delete") (lit "/capi/v2/order/cancel") None None
     = (Returns (TestApi.ErrorDict (lit "Unsupported method: delete")), []).
Proof.
  assert (Hm : is_ascii (lit "delete")) by (repeat constructor).
  assert (Hg : upper (lit "delete") <> lit "GET") by discriminate.
  assert (Hp : upper (lit "delete") <> lit "POST") by discriminate.
  assert (Hs : encodable (lit "S"))
    by (apply encodable_ascii; repeat constructor).
  assert (Hq : encodable (lit "/capi/v2/order/cancel"))
    by (apply encodable_ascii; repeat constructor).
  exact (conj Hm (conj Hg (conj Hp (conj Hs (conj Hq
           (client_unsupported_method unit (ClientSample.client (Returns tt))
              (lit "delete") (lit "/capi/v2/order/cancel") None None
              Hm Hg Hp Hs Hq)))))).
Defined.

(** X16. The proxy signs as the direct client does. Take a GET or POST
    the client would send for path P, parameters and body, and the same
    request arriving at the proxy with the client's secret in ACCESS-SIGN
    at the same millisecond, carrying the bytes its Content-Length
    announces, with no [?] inside the path or the parameters: the proxy
    forwards it to the URL the client would call,
    with the same ACCESS-SIGN and ACCESS-TIMESTAMP. *)
Theorem proxy_signs_like_client
    (J : Type) (c : TestApi.Client J) (rt : Runtime) (self : Request)
    (method P : str) (params : option (list (str * str)))
    (body : option (list (str * jvalue))) (n : Z) (B : str) :
  let sent := TestApi.make_request J c method P params body in
  let result := _proxy_request rt self method fresh in
  method = lit "GET" \/ method = lit "POST" ->
  authenticated self = true ->
  header_or_empty self (lit "ACCESS-SIGN") = TestApi.API_SECRET c ->
  time_ms rt = TestApi.client_time_ms c ->
  ~ In 63 P ->
  ~ In 63 (TestApi.query_of params) ->
  path self = P ++ (if TestApi.given params
                    then lit "?" ++ TestApi.query_of params
                    else []) ->
  content_length self = Returns n ->
  body_received self n ->
  utf8_decode Strict (body_bytes self n) = Some B ->
  (method = lit "POST" ->
   B = if TestApi.given body then json_dumps (TestApi.items body) else []) ->
  exists req call sig,
    upstream_calls (snd result) = [req]
    /\ snd sent = [call]
    /\ out_url req = TestApi.call_url call
    /\ dict_get (out_headers req) (lit "ACCESS-SIGN") = Some sig
    /\ dict_get (TestApi.call_headers call) (lit "ACCESS-SIGN") = Some sig
    /\ dict_get (out_headers req) (lit "ACCESS-TIMESTAMP")
       = dict_get (TestApi.call_headers call) (lit "ACCESS-TIMESTAMP").
Proof.
  cbv zeta. intros Hm Hauth Hsecret Htime HP HQ Hpath Hn Hrecv HB Hbody.
  destruct (outbound_forwards rt self method n B (handled_method _ Hm) Hn
              (body_received_maxsize _ _ Hrecv) HB)
    as (hs & Hhs & Hout).
  destruct (forward_headers_cases rt self method B hs Hhs)
    as [[Hno _]|[_ (sig & Hsig & ->)]]; [congruence|].
  assert (Hsp : sign_path self method
                = if str_eqb (upper method) (lit "GET")
                     && TestApi.given params
                  then P ++ lit "?" ++ TestApi.query_of params
                  else P).
  { destruct (TestApi.given params) eqn:Hg.
    - destruct Hm as [-> | ->].
      + apply sign_path_plain_query; auto using query_of_given.
      + unfold sign_path. cbn [andb].
        apply (base_path_before_query self P
                 (Some (TestApi.query_of params)) HP Hpath).
    - rewrite andb_false_r. rewrite app_nil_r in Hpath.
      unfold sign_path.
      assert (Hq : ~ In 63 (path self)) by now rewrite Hpath.
      rewrite (query_string_absent self Hq). cbn [truthy].
      rewrite andb_false_r.
      apply (base_path_before_query self P None HP).
      now rewrite app_nil_r. }
  assert (Hsb : sign_body method B
                = if negb (str_eqb (upper method) (lit "GET"))
                  then if TestApi.given body
                       then json_dumps (TestApi.items body) else []
                  else []).
  { destruct Hm as [-> | ->]; [reflexivity|].
    rewrite (Hbody eq_refl). reflexivity. }
  rewrite Hsp, Hsb, Hsecret, Htime in Hsig.
  assert (Hurl : WEEX_API_BASE ++ path self
                 = if TestApi.given params
                   then (TestApi.BASE_URL ++ P) ++ lit "?"
                        ++ TestApi.query_of params
                   else TestApi.BASE_URL ++ P).
  { rewrite Hpath. destruct (TestApi.given params).
    - now rewrite <- app_assoc.
    - now rewrite app_nil_r. }
  assert (Hsent : exists call,
             snd (TestApi.make_request J c method P params body) = [call]
             /\ TestApi.call_url call = WEEX_API_BASE ++ path self
             /\ dict_get (TestApi.call_headers call) (lit "ACCESS-SIGN")
                = Some sig
             /\ dict_get (TestApi.call_headers call) (lit "ACCESS-TIMESTAMP")
                = Some (str_of_Z (TestApi.client_time_ms c))).
  { destruct Hm as [-> | ->]; eexists;
      unfold TestApi.make_request; cbv zeta;
      rewrite client_signature;
      match goal with
      | |- context [generate_signature ?a ?b ?m ?p ?q] =>
          replace (generate_signature a b m p q) with (Returns sig)
            by (symmetry; exact Hsig)
      end;
      rewrite <- Hurl.
    - change (str_eqb (upper (lit "GET")) (lit "GET")) with true. cbv iota.
      destruct (TestApi.requests_call c _); repeat split.
    - change (str_eqb (upper (lit "POST")) (lit "GET")) with false.
      change (str_eqb (upper (lit "POST")) (lit "POST")) with true.
      cbv iota.
      destruct (TestApi.requests_call c _); repeat split. }
  destruct Hsent as (call & Hcall & Hcurl & Hcsig & Hcts).
  eexists. exists call, sig.
  split; [exact (forwarded _ _ _ _ Hout)|]. split; [exact Hcall|].
  cbn [out_url out_headers]. split; [now rewrite Hcurl|].
  split; [reflexivity|]. split; [exact Hcsig|].
  rewrite Hcts, Htime. reflexivity.
Qed.

(** X16 at the client's own [test_single_account]: GET
    /capi/v2/account/getAccount with the parameter symbol = cmt_btcusdt. *)
Lemma proxy_signs_like_client_witness :
  let c := ClientSample.client (Returns tt) in
  let params := Some [(lit "symbol", lit "cmt_btcusdt")] in
  let self :=
    {| raw_path := blit "/capi/v2/account/getAccount?symbol=cmt_btcusdt";
       raw_headers := Sample.credentials;
       rfile := [] |} in
  let sent :=
    TestApi.make_request unit c (lit "GET")
      (lit "/capi/v2/account/getAccount") params None in
  let result :=
    _proxy_request (Sample.runtime (Returns Sample.ok_response)) self
      (lit "GET") fresh in
  authenticated self = true
  /\ header_or_empty self (lit "ACCESS-SIGN") = TestApi.API_SECRET c
  /\ path self
     = lit "/capi/v2/account/getAccount" ++ lit "?"
       ++ TestApi.query_of params
  /\ content_length self = Returns 0%Z
  /\ body_received self 0
  /\ exists req call sig,
       upstream_calls (snd result) = [req]
       /\ snd sent = [call]
       /\ out_url req = TestApi.call_url call
       /\ dict_get (out_headers req) (lit "ACCESS-SIGN") = Some sig
       /\ dict_get (TestApi.call_headers call) (lit "ACCESS-SIGN") = Some sig.
Proof.
  cbv zeta.
  set (c := ClientSample.client (Returns tt)).
  set (params := Some [(lit "symbol", lit "cmt_btcusdt")]).
  set (self := {| raw_path :=
                    blit "/capi/v2/account/getAccount?symbol=cmt_btcusdt";
                  raw_headers := Sample.credentials;
                  rfile := [] |}).
  assert (Hauth : authenticated self = true) by (vm_compute; reflexivity).
  assert (Hsecret : header_or_empty self (lit "ACCESS-SIGN")
                    = TestApi.API_SECRET c) by (vm_compute; reflexivity).
  assert (Htime : time_ms (Sample.runtime (Returns Sample.ok_response))
                  = TestApi.client_time_ms c) by reflexivity.
  assert (HP : ~ In 63 (lit "/capi/v2/account/getAccount"))
    by (vm_compute; intuition discriminate).
  assert (HQ : ~ In 63 (TestApi.query_of params))
    by (vm_compute; intuition discriminate).
  assert (Hpath : path self
                  = lit "/capi/v2/account/getAccount"
                    ++ (if TestApi.given params
                        then lit "?" ++ TestApi.query_of params
                        else [])) by (vm_compute; reflexivity).
  assert (Hn : content_length self = Returns 0%Z) by (vm_compute; reflexivity).
  assert (Hrecv : body_received self 0)
    by (vm_compute; split; discriminate).
  assert (HB : utf8_decode Strict (body_bytes self 0) = Some [])
    by (vm_compute; reflexivity).
  assert (Hbody : lit "GET" = lit "POST" ->
                  @nil N = if TestApi.given (@None (list (str * jvalue)))
                           then json_dumps (TestApi.items None) else [])
    by discriminate.
  destruct (proxy_signs_like_client unit c
              (Sample.runtime (Returns Sample.ok_response)) self
              (lit "GET") (lit "/capi/v2/account/getAccount") params None
              0%Z [] (or_introl eq_refl) Hauth Hsecret Htime HP HQ Hpath
              Hn Hrecv HB Hbody)
    as (req & call & sig & H1 & H2 & H3 & H4 & H5 & _).
  split; [exact Hauth|]. split; [exact Hsecret|]. split; [exact Hpath|].
  split; [exact Hn|]. split; [exact Hrecv|].
  exists req, call, sig.
  exact (conj H1 (conj H2 (conj H3 (conj H4 H5)))).
Defined.

(** * Start-up and the static server *)

Local Transparent int_of_str.

(** X17. The listening port is 8888 (8080 for the static server) without
    an argument; with one it is whatever integer the first argument
    spells, of either sign and of any size up to the interpreter's limit of
    4300 digits, no range being checked and further arguments being
    ignored; a first argument in Latin-1 that [int] refuses, as no integer
    or as one of more than 4300 digits, raises ValueError, before any
    server starts. *)
Theorem port_of_arguments (script : str) :
  (PORT [script] = Returns 8888%Z
   /\ StaticServer.PORT [script] = Returns 8080%Z)
  /\ (forall (n : Z) (rest : list str),
        (digit_count (str_of_Z n) <= int_max_str_digits)%N ->
        PORT (script :: str_of_Z n :: rest) = Returns n
        /\ StaticServer.PORT (script :: str_of_Z n :: rest) = Returns n)
  /\ (forall (arg : str) (rest : list str),
        is_latin1 arg ->
        int_of_str arg = None
        \/ (int_max_str_digits < digit_count arg)%N ->
        PORT (script :: arg :: rest) = Raises (ValueError arg)
        /\ StaticServer.PORT (script :: arg :: rest)
           = Raises (ValueError arg)).
Proof.
  split; [split; reflexivity|]. split.
  - intros n rest Hd. unfold PORT, StaticServer.PORT, int.
    cbn [List.length Nat.ltb Nat.leb nth].
    rewrite int_of_str_of_Z.
    apply N.ltb_ge in Hd. rewrite Hd. split; reflexivity.
  - intros arg rest _ H. unfold PORT, StaticServer.PORT, int.
    cbn [List.length Nat.ltb Nat.leb nth].
    destruct H as [H|H].
    + rewrite H. split; reflexivity.
    + apply N.ltb_lt in H. rewrite H.
      destruct (int_of_str arg); split; reflexivity.
Qed.

Local Opaque int_of_str.

(** X17 at the arguments 9000 and -1, and at two arguments that are no
    integers: 80a, and 5 after the character U+001C. *)
Lemma port_of_arguments_witness :
  (digit_count (str_of_Z 9000) <= int_max_str_digits)%N
  /\ (digit_count (str_of_Z (-1)) <= int_max_str_digits)%N
  /\ is_latin1 (lit "80a")
  /\ int_of_str (lit "80a") = None
  /\ is_latin1 [28; 53]
  /\ int_of_str [28; 53] = None
  /\ PORT [lit "proxy-server.py"; lit "80a"] = Raises (ValueError (lit "80a"))
  /\ PORT [lit "proxy-server.py"; [28; 53]] = Raises (ValueError [28; 53])
  /\ PORT [lit "proxy-server.py"; lit "9000"; lit "x"] = Returns 9000%Z
  /\ StaticServer.PORT [lit "server.py"; lit "-1"] = Returns (-1)%Z.
Proof.
  assert (B1 : (digit_count (str_of_Z 9000) <= int_max_str_digits)%N)
    by (vm_compute; discriminate).
  assert (B2 : (digit_count (str_of_Z (-1)) <= int_max_str_digits)%N)
    by (vm_compute; discriminate).
  assert (L : is_latin1 (lit "80a")) by (repeat constructor).
  assert (H : int_of_str (lit "80a") = None) by (vm_compute; reflexivity).
  assert (L' : is_latin1 [28; 53]) by (repeat constructor).
  assert (H' : int_of_str [28; 53] = None) by (vm_compute; reflexivity).
  destruct (port_of_arguments (lit "proxy-server.py")) as (_ & Hn & He).
  destruct (port_of_arguments (lit "server.py")) as (_ & Hn' & _).
  exact (conj B1 (conj B2 (conj L (conj H (conj L' (conj H'
           (conj (proj1 (He (lit "80a") [] L (or_introl H)))
              (conj (proj1 (He [28; 53] [] L' (or_introl H')))
                 (conj (proj1 (Hn 9000%Z [lit "x"] B1))
                    (proj2 (Hn' (-1)%Z [] B2))))))))))).
Defined.


(** * What the caller can read *)

Local Transparent utf8_encode utf8_decode.

Ltac decide_tests :=
  repeat match goal with
         | |- context [?a <? ?b] => destruct (N.ltb_spec a b); try lia
         | |- context [?a =? ?b] => destruct (N.eqb_spec a b); try lia
         | |- context [?a <=? ?b] => destruct (N.leb_spec a b); try lia
         end.

Ltac some_inj :=
  let H := fresh in
  intros H;
  apply (f_equal (fun o => match o with Some x => x | None => [] end)) in H;
  cbv beta iota in H;
  match type of H with _ = ?v => subst v end.

(** The base-64 digits of a code point. *)
Lemma base64_digits cp :
  exists q1 r1 q2 r2 q3 r3,
    cp = 64 * q1 + r1 /\ r1 < 64 /\ q1 = 64 * q2 + r2 /\ r2 < 64
    /\ q2 = 64 * q3 + r3 /\ r3 < 64
    /\ cp / 64 = q1 /\ cp mod 64 = r1 /\ cp / 64 mod 64 = r2
    /\ cp / 4096 = q2 /\ cp / 4096 mod 64 = r3 /\ cp / 262144 = q3.
Proof.
  exists (cp / 64), (cp mod 64), (cp / 64 / 64), (cp / 64 mod 64),
    (cp / 64 / 64 / 64), (cp / 64 / 64 mod 64).
  pose proof (N.div_mod cp 64).
  pose proof (N.mod_lt cp 64).
  pose proof (N.div_mod (cp / 64) 64).
  pose proof (N.mod_lt (cp / 64) 64).
  pose proof (N.div_mod (cp / 64 / 64) 64).
  pose proof (N.mod_lt (cp / 64 / 64) 64).
  rewrite !N.Div0.div_div.
  change (64 * 64) with 4096. change (4096 * 64) with 262144.
  rewrite !N.Div0.div_div in *.
  change (64 * 64) with 4096 in *. change (4096 * 64) with 262144 in *.
  repeat split; lia.
Qed.

(** Decoding reads an encoded code point back, in either mode. *)
Lemma decode_encoded_cp e cp enc rest :
  utf8_encode_cp cp = Some enc ->
  utf8_decode e (enc ++ rest) = option_map (cons cp) (utf8_decode e rest).
Proof.
  unfold utf8_encode_cp.
  destruct (base64_digits cp)
    as (q1 & r1 & q2 & r2 & q3 & r3 & C1 & R1 & C2 & R2 & C3 & R3
        & -> & -> & -> & -> & -> & ->).
  destruct (N.ltb_spec cp 128) as [L1|L1].
  { some_inj. cbn [app utf8_decode]. cbv zeta.
    rewrite to_of_N by lia.
    replace (classify cp) with Single
      by (unfold classify; decide_tests; reflexivity).
    reflexivity. }
  destruct (N.ltb_spec cp 2048) as [L2|L2].
  { some_inj. cbn [app utf8_decode]. cbv zeta.
    rewrite !to_of_N by lia.
    replace (classify (192 + q1)) with Lead2
      by (unfold classify; decide_tests; reflexivity).
    replace (between 128 191 (128 + r1)) with true
      by (unfold between; decide_tests; reflexivity).
    replace ((192 + q1 - 192) * 64 + (128 + r1 - 128)) with cp by lia.
    reflexivity. }
  destruct (N.ltb_spec cp 65536) as [L3|L3].
  { destruct (between 55296 57343 cp) eqn:S; [discriminate|].
    assert (HS : cp < 55296 \/ 57343 < cp).
    { unfold between in S. apply andb_false_iff in S.
      destruct S as [S|S]; apply N.leb_gt in S; lia. }
    some_inj. cbn [app utf8_decode]. cbv zeta.
    rewrite !to_of_N by lia.
    assert (Hc : exists lo hi,
               classify (224 + q2) = Lead3 lo hi /\ lo <= 128 + r2 <= hi).
    { unfold classify. decide_tests; eexists; eexists;
        (split; [reflexivity|lia]). }
    destruct Hc as (lo & hi & -> & Hr).
    replace (between lo hi (128 + r2)) with true
      by (unfold between; decide_tests; reflexivity).
    replace (between 128 191 (128 + r1)) with true
      by (unfold between; decide_tests; reflexivity).
    replace ((224 + q2 - 224) * 4096 + (128 + r2 - 128) * 64
             + (128 + r1 - 128)) with cp by lia.
    reflexivity. }
  destruct (N.ltb_spec cp 1114112) as [L4|L4]; [|discriminate].
  some_inj. cbn [app utf8_decode]. cbv zeta.
  rewrite !to_of_N by lia.
  assert (Hc : exists lo hi,
             classify (240 + q3) = Lead4 lo hi /\ lo <= 128 + r3 <= hi).
  { unfold classify. decide_tests; eexists; eexists;
      (split; [reflexivity|lia]). }
  destruct Hc as (lo & hi & -> & Hr).
  replace (between lo hi (128 + r3)) with true
    by (unfold between; decide_tests; reflexivity).
  replace (between 128 191 (128 + r2)) with true
    by (unfold between; decide_tests; reflexivity).
  replace (between 128 191 (128 + r1)) with true
    by (unfold between; decide_tests; reflexivity).
  replace ((240 + q3 - 240) * 262144 + (128 + r3 - 128) * 4096
           + (128 + r2 - 128) * 64 + (128 + r1 - 128)) with cp by lia.
  reflexivity.
Qed.

(** Encoding is injective: what [str.encode()] returns decodes, strictly,
    to the text it came from. *)
Lemma utf8_encoded_decodes s :
  forall out, utf8_encode s = Some out -> utf8_decode Strict out = Some s.
Proof.
  induction s as [|cp s IH]; intros out H.
  - now inversion H.
  - cbn [utf8_encode] in H.
    destruct (utf8_encode_cp cp) as [enc|] eqn:Hcp; [|discriminate].
    destruct (utf8_encode s) as [bs|]; [|discriminate].
    inversion H; subst out.
    rewrite (decode_encoded_cp _ _ _ _ Hcp), (IH bs eq_refl). reflexivity.
Qed.

Local Opaque utf8_encode utf8_decode.

(** The bytes relayed for an HTTP error decode strictly. *)
Lemma reencode_decodes b : exists s, utf8_decode Strict (reencode b) = Some s.
Proof.
  unfold reencode.
  destruct (utf8_replace_total b) as [s Hs]. rewrite Hs.
  destruct (utf8_decoded_encodes _ _ _ Hs) as [out Hout]. rewrite Hout.
  exists s. now apply utf8_encoded_decodes.
Qed.

Lemma ascii_bytes s :
  is_ascii s -> Forall (fun x => Byte.to_N x < 128) (List.map byte_of_N s).
Proof.
  induction 1 as [|c s Hc Hs IH]; constructor; [|exact IH].
  rewrite to_of_N; lia.
Qed.

Lemma dumps_bytes_decodes d :
  exists s, utf8_decode Strict (dumps_bytes d) = Some s.
Proof.
  eexists. apply utf8_decode_ascii, ascii_bytes, json_dumps_ascii.
Qed.

Lemma after_except_body rt req e :
  exists s,
    utf8_decode Strict (wfile (after_except rt (called fresh req) e)) = Some s.
Proof.
  destruct e; cbn [after_except responded wfile called fresh app];
    (apply reencode_decodes || apply dumps_bytes_decodes).
Qed.

(** X19. Unless the upstream answers, the body the caller receives is
    well-formed UTF-8: the handler's own JSON messages are ASCII, and the
    body of an upstream HTTP error has been decoded with replacement and
    encoded again, which leaves no ill-formed byte behind. *)
Theorem failure_body_well_formed
    (rt : Runtime) (self : Request) (method : str) :
  let result := _proxy_request rt self method fresh in
  (forall req, In req (upstream_calls (snd result)) ->
               exists e, urlopen rt req = Raises e) ->
  exists s, utf8_decode Strict (wfile (snd result)) = Some s.
Proof.
  cbv zeta. rewrite proxy_request_run. cbn [snd].
  rewrite after_proxy_request_calls. unfold after_proxy_request.
  destruct (outbound rt self method) as [req|e].
  - intros H. destruct (H req (or_introl eq_refl)) as [e He].
    rewrite He. apply after_except_body.
  - intros _. destruct e; cbn [after_except responded wfile fresh app];
      (apply reencode_decodes || apply dumps_bytes_decodes).
Qed.

(** X19 at an upstream 400 whose body is the single byte ff. *)
Lemma failure_body_well_formed_witness :
  let rt := Sample.runtime (Raises (HTTPError 400 [xff])) in
  let result := _proxy_request rt Sample.ticker_public (lit "GET") fresh in
  (forall req, In req (upstream_calls (snd result)) ->
               exists e, urlopen rt req = Raises e)
  /\ utf8_decode Strict [xff] = None
  /\ exists s, utf8_decode Strict (wfile (snd result)) = Some s.
Proof.
  cbv zeta.
  assert (H : forall req,
             In req (upstream_calls
                       (snd (_proxy_request
                               (Sample.runtime (Raises (HTTPError 400 [xff])))
                               Sample.ticker_public (lit "GET") fresh))) ->
             exists e,
               urlopen (Sample.runtime (Raises (HTTPError 400 [xff]))) req
               = Raises e).
  { intros req _. eexists. reflexivity. }
  assert (Hbad : utf8_decode Strict [xff] = None) by (vm_compute; reflexivity).
  exact (conj H (conj Hbad (failure_body_well_formed _ _ _ H))).
Defined.
